(** * godbg: the bridge between a gdblib session and the browser

    A shallow embedding of [godbg.go]: the chained static-file resolver,
    the HTTP command dispatcher and the websocket event multiplexer,
    followed by the properties checked against them.

    The program talks to four collaborators that are not part of it:
    [net/http], [encoding/json], [os]/[io] and the [gdblib] session.  They
    are interfaces here (type classes); the handlers and the loop are
    written against the interfaces exactly as the Go code is written against
    the packages.  A small concrete instance (a stub session and a decoder
    for flat JSON objects) is given at the end of the definitions, to run
    the code on concrete requests. *)

From Stdlib Require Import ZArith Lia.
From stdpp Require Import base strings gmap list functions.

Local Open Scope Z_scope.

(** ** Go values shared by the three components *)

(** A Go [error]: the program only ever observes its text, [err.Error()]. *)
Record error := errors_New { Error : string }.

(** A Go result pair [(v, err)]: [err == nil] with a value, or an error. *)
Inductive result (A : Type) : Type :=
| Ok (a : A)
| Err (e : error).
Arguments Ok {A} a.
Arguments Err {A} e.

Definition is_Ok {A} (r : result A) : bool :=
  match r with Ok _ => true | Err _ => false end.

Definition is_Err {A} (r : result A) : bool :=
  match r with Ok _ => false | Err _ => true end.

(** ** Resource resolver: [chainedFileSystem] and [noReaddirFile] *)

(** [http.File], the interface of the handles: of its methods, [Readdir]
    (the directory listing) and [Stat] stand here; [os.FileInfo] is
    [FileInfo]. *)
Class HttpFile (F FileInfo : Type) := {
  Readdir : F → Z → list FileInfo * option error;
  Stat : F → result FileInfo;
}.

Section Resolver.

(** The files handed out by the providers, with their own methods. *)
Context {File FileInfo : Type} `{HF : HttpFile File FileInfo}.

(** [http.FileSystem]: the one-method interface [Open(name) (File, error)]. *)
Record FileSystem := { Open : string → result File }.

(** [type noReaddirFile struct { http.File }] *)
Record noReaddirFile := { embedded : File }.

(** [func (file noReaddirFile) Readdir(count int) ([]os.FileInfo, error)]
    returns [nil, nil]: the nil slice has no entries, the error is nil. *)
Definition noReaddirFile_Readdir (file : noReaddirFile) (count : Z)
  : list FileInfo * option error :=
  ([], None).

(** [noReaddirFile] is an [http.File]: its own [Readdir], and the methods
    promoted from the embedded file. *)
#[global] Instance noReaddirFile_HttpFile : HttpFile noReaddirFile FileInfo := {|
  Readdir := noReaddirFile_Readdir;
  Stat := λ file, Stat (embedded file);
|}.

(** The body of [for i := range cfs.fs], entered at index [i] with the
    providers from [i] on still to try; falling out of the loop reaches the
    final [return nil, errors.New("Algorithm failure")]. *)
Fixpoint Open_from (lastIdx i : Z) (fs : list FileSystem) (name : string)
  : result noReaddirFile :=
  match fs with
  | [] => Err (errors_New "Algorithm failure")
  | p :: rest =>
      match Open p name with
      | Err err =>
          if bool_decide (i = lastIdx) then Err err
          else Open_from lastIdx (i + 1) rest name
      | Ok f => Ok {| embedded := f |}
      end
  end.

(** [type chainedFileSystem struct { fs []http.FileSystem }] *)
Record chainedFileSystem := { fs : list FileSystem }.

(** [func (cfs chainedFileSystem) Open(name string) (http.File, error)] *)
Definition chained_Open (cfs : chainedFileSystem) (name : string)
  : result noReaddirFile :=
  let lastIdx := Z.of_nat (length (fs cfs)) - 1 in
  Open_from lastIdx 0 (fs cfs) name.

End Resolver.

Arguments FileSystem : clear implicits.
Arguments noReaddirFile : clear implicits.
Arguments chainedFileSystem : clear implicits.

(** ** Command dispatcher *)

(** The session operations of [gdblib] that the dispatcher binds to an HTTP
    endpoint.  [query]: the methods without parameters,
    [X()] returning a result struct and an [error]. *)
Inductive query := ThreadListIds | StackInfoFrame | BreakList.

(** [command]: the methods that take a parameter struct,
    [X(parms)]; the first five return a result struct and an [error], the
    others only an [error]. *)
Inductive command :=
| ThreadSelect | ThreadInfo | StackListFrames | StackListVariables | BreakInsert
| ExecNext | ExecStep | ExecContinue | ExecRun | ExecInterrupt
| BreakEnable | BreakDisable.

(** [gdblib]: the session type, the parameter and result structs, the
    operations and [GdbExit].  An operation reads and changes the session
    and returns a result or an error. *)
Class GdbLib := {
  GDB : Type;
  QResult : query → Type;
  Parms : command → Type;
  Result : command → Type;
  ask : ∀ q : query, GDB → result (QResult q) * GDB;
  invoke : ∀ c : command, Parms c → GDB → result (Result c) * GDB;
  GdbExit : GDB → GDB;
}.

(** What the handlers use of [encoding/json], [os] and [io]:
    - [zero c] is the composite literal [gdblib.XParms{}];
    - [Decode c body parms] is [json.NewDecoder(body).Decode(&parms)]: the
      value left in [parms] and the error;
    - [Decode_map] is the same call on a [map[string]string];
    - [Marshal_q q v] and [Marshal c v] are [json.Marshal(v)];
    - [os_Open name] is [os.Open(name)] and [io_Copy file] gives the bytes
      that [io.Copy(w, file)] writes to [w] and the error it returns. *)
Class Runtime `{GdbLib} := {
  zero : ∀ c : command, Parms c;
  Decode : ∀ c : command, string → Parms c → Parms c * option error;
  Decode_map : string → gmap string string → gmap string string * option error;
  Marshal_q : ∀ q : query, QResult q → result string;
  Marshal : ∀ c : command, Result c → result string;
  osFile : Type;
  os_Open : string → result osFile;
  io_Copy : osFile → string * option error;
}.

(** [http.ResponseWriter]: the status line once it has been written, and
    the body so far.  [WriteHeader] after the header has gone out is
    ignored by [net/http]; [Write] sends an implicit 200 header first when
    none has been written. *)
Record ResponseWriter := { status : option Z; body : string }.

Definition rw_WriteHeader (code : Z) (w : ResponseWriter) : ResponseWriter :=
  match status w with
  | None => {| status := Some code; body := body w |}
  | Some _ => w
  end.

Definition rw_Write (b : string) (w : ResponseWriter) : ResponseWriter :=
  {| status := Some (default 200 (status w)); body := body w ++ b |}.

(** [*http.Request]: the handlers read nothing but the body. *)
Record Request := { Body : string }.

Section Dispatcher.
Context `{RT : Runtime}.

(** What a handler does besides answering: the calls that leave the bridge,
    in order. *)
Inductive call :=
| Ask (q : query)
| Invoke (c : command) (parms : Parms c)
| Exit
| OsOpen (name : string).

(** The world a handler runs in: the session [mygdb] captured by the
    closures, the calls made so far and the response writer [w]. *)
Record state := { mygdb : GDB; calls : list call; w : ResponseWriter }.

(** Handlers are state transformers over [state]. *)
Definition M (A : Type) : Type := state → A * state.

#[local] Instance M_ret : MRet M := λ A a s, (a, s).
#[local] Instance M_bind : MBind M := λ A B f m s, let '(a, s') := m s in f a s'.

Definition WriteHeader (code : Z) : M unit := λ s,
  (tt, {| mygdb := mygdb s; calls := calls s; w := rw_WriteHeader code (w s) |}).

Definition Write (b : string) : M unit := λ s,
  (tt, {| mygdb := mygdb s; calls := calls s; w := rw_Write b (w s) |}).

(** [mygdb.X()] *)
Definition gdb0 (q : query) : M (result (QResult q)) := λ s,
  let '(r, g) := ask q (mygdb s) in
  (r, {| mygdb := g; calls := calls s ++ [Ask q]; w := w s |}).

(** [mygdb.X(parms)] *)
Definition gdb (c : command) (parms : Parms c) : M (result (Result c)) := λ s,
  let '(r, g) := invoke c parms (mygdb s) in
  (r, {| mygdb := g; calls := calls s ++ [Invoke c parms]; w := w s |}).

(** [mygdb.GdbExit()] *)
Definition gdb_exit : M unit := λ s,
  (tt, {| mygdb := GdbExit (mygdb s); calls := calls s ++ [Exit]; w := w s |}).

(** [os.Open(name)] *)
Definition open (name : string) : M (result osFile) := λ s,
  (os_Open name, {| mygdb := mygdb s; calls := calls s ++ [OsOpen name]; w := w s |}).

(** [io.Copy(w, file)] *)
Definition copy (file : osFile) : M (option error) :=
  let '(bytes, err) := io_Copy file in
  if bool_decide (bytes = "") then mret err else Write bytes;; mret err.

(** The [error] of a call whose value is not used. *)
Definition err_of {A} (r : result A) : option error :=
  match r with Ok _ => None | Err e => Some e end.

(** *** [addThreadHandlers] *)

Definition handle_thread_listids (r : Request) : M unit :=
  res ← gdb0 ThreadListIds;
  match res with
  | Err err => WriteHeader 400;; Write (Error err)
  | Ok result =>
      match Marshal_q ThreadListIds result with
      | Err err => WriteHeader 500;; Write (Error err)
      | Ok resultBytes => WriteHeader 200;; Write resultBytes
      end
  end.

Definition handle_thread_select (r : Request) : M unit :=
  let parms := zero ThreadSelect in
  let '(parms, err) := Decode ThreadSelect (Body r) parms in
  match err with
  | Some err => WriteHeader 400;; Write (Error err)
  | None =>
      res ← gdb ThreadSelect parms;
      match res with
      | Err err => WriteHeader 400;; Write (Error err)
      | Ok result =>
          match Marshal ThreadSelect result with
          | Err err => WriteHeader 500;; Write (Error err)
          | Ok resultBytes => WriteHeader 200;; Write resultBytes
          end
      end
  end.

Definition handle_thread_info (r : Request) : M unit :=
  let parms := zero ThreadInfo in
  let '(parms, err) := Decode ThreadInfo (Body r) parms in
  match err with
  | Some err => WriteHeader 400;; Write (Error err)
  | None =>
      res ← gdb ThreadInfo parms;
      match res with
      | Err err => WriteHeader 400;; Write (Error err)
      | Ok result =>
          match Marshal ThreadInfo result with
          | Err err => WriteHeader 500;; Write (Error err)
          | Ok resultBytes => WriteHeader 200;; Write resultBytes
          end
      end
  end.

(** *** [addFrameHandlers] *)

Definition handle_frame_stackinfo (r : Request) : M unit :=
  res ← gdb0 StackInfoFrame;
  match res with
  | Err err => WriteHeader 400;; Write (Error err)
  | Ok result =>
      match Marshal_q StackInfoFrame result with
      | Err err => WriteHeader 500;; Write (Error err)
      | Ok resultBytes => WriteHeader 200;; Write resultBytes
      end
  end.

Definition handle_frame_stacklist (r : Request) : M unit :=
  let parms := zero StackListFrames in
  let '(parms, err) := Decode StackListFrames (Body r) parms in
  match err with
  | Some err => WriteHeader 400;; Write (Error err)
  | None =>
      res ← gdb StackListFrames parms;
      match res with
      | Err err => WriteHeader 400;; Write (Error err)
      | Ok result =>
          match Marshal StackListFrames result with
          | Err err => WriteHeader 500;; Write (Error err)
          | Ok resultBytes => WriteHeader 200;; Write resultBytes
          end
      end
  end.

Definition handle_frame_variableslist (r : Request) : M unit :=
  let parms := zero StackListVariables in
  let '(parms, err) := Decode StackListVariables (Body r) parms in
  match err with
  | Some err => WriteHeader 400;; Write (Error err)
  | None =>
      res ← gdb StackListVariables parms;
      match res with
      | Err err => WriteHeader 400;; Write (Error err)
      | Ok result =>
          match Marshal StackListVariables result with
          | Err err => WriteHeader 500;; Write (Error err)
          | Ok resultBytes => WriteHeader 200;; Write resultBytes
          end
      end
  end.

(** [parms["File"]] on a Go map: the zero value when the key is absent. *)
Definition index (parms : gmap string string) (key : string) : string :=
  default "" (parms !! key).

Definition handle_file_get (r : Request) : M unit :=
  let parms : gmap string string := ∅ in
  let '(parms, err) := Decode_map (Body r) parms in
  match err with
  | Some err => WriteHeader 400;; Write (Error err)
  | None =>
      res ← open (index parms "File");
      match res with
      | Err err => WriteHeader 500;; Write (Error err)
      | Ok file =>
          WriteHeader 200;;
          err ← copy file;
          match err with
          | Some err => WriteHeader 500;; Write (Error err)
          | None => mret tt
          end
      end
  end.

(** *** [addExecHandlers] *)

Definition handle_exec_next (r : Request) : M unit :=
  let parms := zero ExecNext in
  let '(parms, err) := Decode ExecNext (Body r) parms in
  err ← match err with
        | None => res ← gdb ExecNext parms; mret (err_of res)
        | Some _ => mret err
        end;
  match err with
  | Some err => WriteHeader 400;; Write (Error err)
  | None => WriteHeader 200
  end.

Definition handle_exec_step (r : Request) : M unit :=
  let parms := zero ExecStep in
  let '(parms, err) := Decode ExecStep (Body r) parms in
  err ← match err with
        | None => res ← gdb ExecStep parms; mret (err_of res)
        | Some _ => mret err
        end;
  match err with
  | Some err => WriteHeader 400;; Write (Error err)
  | None => WriteHeader 200
  end.

Definition handle_exec_continue (r : Request) : M unit :=
  let parms := zero ExecContinue in
  let '(parms, err) := Decode ExecContinue (Body r) parms in
  err ← match err with
        | None => res ← gdb ExecContinue parms; mret (err_of res)
        | Some _ => mret err
        end;
  match err with
  | Some err => WriteHeader 400;; Write (Error err)
  | None => WriteHeader 200
  end.

Definition handle_exec_run (r : Request) : M unit :=
  let parms := zero ExecRun in
  let '(parms, err) := Decode ExecRun (Body r) parms in
  err ← match err with
        | None => res ← gdb ExecRun parms; mret (err_of res)
        | Some _ => mret err
        end;
  match err with
  | Some err => WriteHeader 400;; Write (Error err)
  | None => WriteHeader 200
  end.

Definition handle_exec_interrupt (r : Request) : M unit :=
  let parms := zero ExecInterrupt in
  let '(parms, err) := Decode ExecInterrupt (Body r) parms in
  err ← match err with
        | None => res ← gdb ExecInterrupt parms; mret (err_of res)
        | Some _ => mret err
        end;
  match err with
  | Some err => WriteHeader 400;; Write (Error err)
  | None => WriteHeader 200
  end.

(** *** [addBreakpointHandlers] *)

Definition handle_breakpoint_list (r : Request) : M unit :=
  res ← gdb0 BreakList;
  match res with
  | Err err => WriteHeader 500;; Write (Error err)
  | Ok result =>
      match Marshal_q BreakList result with
      | Err err => WriteHeader 500;; Write (Error err)
      | Ok resultBytes => WriteHeader 200;; Write resultBytes
      end
  end.

Definition handle_breakpoint_insert (r : Request) : M unit :=
  let parms := zero BreakInsert in
  let '(parms, err) := Decode BreakInsert (Body r) parms in
  match err with
  | Some err => WriteHeader 400;; Write (Error err)
  | None =>
      res ← gdb BreakInsert parms;
      match res with
      | Err err => WriteHeader 400;; Write (Error err)
      | Ok result =>
          match Marshal BreakInsert result with
          | Err err => WriteHeader 500;; Write (Error err)
          | Ok resultBytes => WriteHeader 200;; Write resultBytes
          end
      end
  end.

Definition handle_breakpoint_enable (r : Request) : M unit :=
  let parms := zero BreakEnable in
  let '(parms, err) := Decode BreakEnable (Body r) parms in
  match err with
  | Some err => WriteHeader 400;; Write (Error err)
  | None =>
      res ← gdb BreakEnable parms;
      match err_of res with
      | Some err => WriteHeader 400;; Write (Error err)
      | None => WriteHeader 200
      end
  end.

Definition handle_breakpoint_disable (r : Request) : M unit :=
  let parms := zero BreakDisable in
  let '(parms, err) := Decode BreakDisable (Body r) parms in
  match err with
  | Some err => WriteHeader 400;; Write (Error err)
  | None =>
      res ← gdb BreakDisable parms;
      match err_of res with
      | Some err => WriteHeader 400;; Write (Error err)
      | None => WriteHeader 200
      end
  end.

(** *** The exit endpoint registered in [main] *)

Definition handle_gdb_exit (r : Request) : M unit :=
  gdb_exit.

(** *** The endpoints *)

(** One endpoint per [http.HandleFunc] under [/handle/]: one for every
    session operation, the file endpoint and the exit endpoint. *)
Inductive endpoint :=
| OnQuery (q : query)
| OnCommand (c : command)
| FileGet
| GdbExitEndpoint.

Definition pattern (ep : endpoint) : string :=
  match ep with
  | OnQuery ThreadListIds => "/handle/thread/listids"
  | OnCommand ThreadSelect => "/handle/thread/select"
  | OnCommand ThreadInfo => "/handle/thread/info"
  | OnQuery StackInfoFrame => "/handle/frame/stackinfo"
  | OnCommand StackListFrames => "/handle/frame/stacklist"
  | OnCommand StackListVariables => "/handle/frame/variableslist"
  | FileGet => "/handle/file/get"
  | OnCommand ExecNext => "/handle/exec/next"
  | OnCommand ExecStep => "/handle/exec/step"
  | OnCommand ExecContinue => "/handle/exec/continue"
  | OnCommand ExecRun => "/handle/exec/run"
  | OnCommand ExecInterrupt => "/handle/exec/interrupt"
  | OnQuery BreakList => "/handle/breakpoint/list"
  | OnCommand BreakInsert => "/handle/breakpoint/insert"
  | OnCommand BreakEnable => "/handle/breakpoint/enable"
  | OnCommand BreakDisable => "/handle/breakpoint/disable"
  | GdbExitEndpoint => "/handle/gdb/exit"
  end.

Definition handler (ep : endpoint) : Request → M unit :=
  match ep with
  | OnQuery ThreadListIds => handle_thread_listids
  | OnCommand ThreadSelect => handle_thread_select
  | OnCommand ThreadInfo => handle_thread_info
  | OnQuery StackInfoFrame => handle_frame_stackinfo
  | OnCommand StackListFrames => handle_frame_stacklist
  | OnCommand StackListVariables => handle_frame_variableslist
  | FileGet => handle_file_get
  | OnCommand ExecNext => handle_exec_next
  | OnCommand ExecStep => handle_exec_step
  | OnCommand ExecContinue => handle_exec_continue
  | OnCommand ExecRun => handle_exec_run
  | OnCommand ExecInterrupt => handle_exec_interrupt
  | OnQuery BreakList => handle_breakpoint_list
  | OnCommand BreakInsert => handle_breakpoint_insert
  | OnCommand BreakEnable => handle_breakpoint_enable
  | OnCommand BreakDisable => handle_breakpoint_disable
  | GdbExitEndpoint => handle_gdb_exit
  end.

(** Serving one request: a fresh response writer, the handler, and the
    state it leaves. *)
Definition serve (ep : endpoint) (r : Request) (g : GDB) : state :=
  snd (handler ep r {| mygdb := g; calls := []; w := {| status := None; body := "" |} |}).

(** The error, if any, of the decoding step of an endpoint; [None] also for
    the endpoints that decode nothing. *)
Definition decode_error (ep : endpoint) (r : Request) : option error :=
  match ep with
  | OnCommand c => snd (Decode c (Body r) (zero c))
  | FileGet => snd (Decode_map (Body r) ∅)
  | OnQuery _ | GdbExitEndpoint => None
  end.

(** Whether the handler of the endpoint decodes the request body. *)
Definition decodes (ep : endpoint) : bool :=
  match ep with
  | OnCommand _ | FileGet => true
  | OnQuery _ | GdbExitEndpoint => false
  end.

(** Whether the operation bound to the endpoint returns data that the
    handler encodes with [json.Marshal]. *)
Definition returns_data (ep : endpoint) : bool :=
  match ep with
  | OnQuery _ => true
  | OnCommand (ThreadSelect | ThreadInfo | StackListFrames
              | StackListVariables | BreakInsert) => true
  | _ => false
  end.

End Dispatcher.

(** ** Event multiplexer: the handler of [/output] *)

(** The four channels of the session that the loop receives from. *)
Inductive channel := Console | Target | InternalLog | AsyncResults.

Global Instance channel_eq_dec : EqDecision channel.
Proof. solve_decision. Defined.

(** [time.Duration] counts nanoseconds. *)
Definition Second : Z := 1000000000.

(** The line feed that ends the argument of [fmt.Printf]. *)
Definition newline : string := String (Ascii.ascii_of_nat 10) "".

(** The argument of [time.After] in the loop. *)
Definition interval : Z := 30 * Second.

(** The values that travel on the channels, as [interface{}]; [of_string]
    boxes a Go string.  [json_Marshal] is [json.Marshal] on the envelope. *)
Class Events := {
  any : Type;
  of_string : string → any;
}.

(** [type webSockResult struct { Type string; Data interface{} }] *)
Record webSockResult `{Events} := { Type_ : string; Data : any }.

Class Wire `{Events} := {
  json_Marshal : webSockResult → result string;
}.

(** The case of the [select] that fires in one iteration. *)
Inductive case := Recv (c : channel) | After.

(** What the surroundings decide in one iteration of the loop: which case
    fires, how long the [select] blocks before it does ([wait]), how long
    the body runs before it calls [ws.Write] ([enc]), what [ws.Write]
    returns ([wr]) and how long the rest of the body takes ([fin]). *)
Record iteration := {
  fired : case;
  wait : Z;
  enc : Z;
  wr : option error;
  fin : Z;
}.

Section Multiplexer.
Context `{G : GdbLib} `{W : Wire}.

(** One call [ws.Write(bytes)]: when, the envelope that was encoded, the
    bytes, and the error returned. *)
Record write := {
  at_time : Z;
  envelope : webSockResult;
  bytes : string;
  failed : option error;
}.

(** The loop and what it touches: the values waiting on each channel
    (oldest first), the clock, the writes to the websocket so far (oldest
    first), the lines printed, the session and the number of [GdbExit]
    calls made by the loop. *)
Record mux := {
  chan : channel → list any;
  now : Z;
  ws : list write;
  stdout : list string;
  session : GDB;
  exits : nat;
}.

(** Runs of the loop: [None] when the surroundings ask for a step that the
    Go runtime cannot take (a receive on an empty channel, a timer firing
    early, time running backwards). *)
Definition L (A : Type) : Type := mux → option (A * mux).

#[local] Instance L_ret : MRet L := λ A a m, Some (a, m).
#[local] Instance L_bind : MBind L := λ A B f c m,
  match c m with
  | Some (a, m') => f a m'
  | None => None
  end.

Definition require (b : bool) : L unit := λ m,
  if b then Some (tt, m) else None.

Definition sleep (d : Z) : L unit := λ m,
  Some (tt, {| chan := chan m; now := now m + d; ws := ws m;
               stdout := stdout m; session := session m; exits := exits m |}).

(** [<-mygdb.X]: the oldest value waiting on the channel. *)
Definition receive (c : channel) : L any := λ m,
  match chan m c with
  | [] => None
  | v :: rest =>
      Some (v, {| chan := <[c := rest]> (chan m); now := now m; ws := ws m;
                  stdout := stdout m; session := session m; exits := exits m |})
  end.

(** A send on the channel by the session's own goroutines. *)
Definition send (c : channel) (v : any) : L unit := λ m,
  Some (tt, {| chan := <[c := (chan m c ++ [v])%list]> (chan m); now := now m; ws := ws m;
               stdout := stdout m; session := session m; exits := exits m |}).

(** [ws.Write(bytes)] of the envelope [e] in iteration [it]. *)
Definition ws_Write (it : iteration) (e : webSockResult) (b : string)
  : L (option error) := λ m,
  let t := now m + enc it in
  Some (wr it,
        {| chan := chan m; now := t;
           ws := ws m ++ [{| at_time := t; envelope := e; bytes := b; failed := wr it |}];
           stdout := stdout m; session := session m; exits := exits m |}).

Definition Printf (line : string) : L unit := λ m,
  Some (tt, {| chan := chan m; now := now m; ws := ws m;
               stdout := stdout m ++ [line]; session := session m; exits := exits m |}).

(** [mygdb.GdbExit()] *)
Definition mux_GdbExit : L unit := λ m,
  Some (tt, {| chan := chan m; now := now m; ws := ws m; stdout := stdout m;
               session := GdbExit (session m); exits := S (exits m) |}).

(** One iteration of [for { select { ... } }]. *)
Definition iterate (it : iteration) : L unit :=
  require (bool_decide (0 ≤ wait it ∧ 0 ≤ enc it ∧ 0 ≤ fin it));;
  sleep (wait it);;
  match fired it with
  | Recv Console =>
      data ← receive Console;
      let e := {| Type_ := "console"; Data := data |} in
      match json_Marshal e with
      | Ok bytes =>
          err ← ws_Write it e bytes;
          match err with
          | Some _ => Printf ("Client disconnect" +:+ newline);; mux_GdbExit
          | None => mret tt
          end
      | Err _ => mret tt
      end
  | Recv Target =>
      data ← receive Target;
      let e := {| Type_ := "target"; Data := data |} in
      match json_Marshal e with
      | Ok bytes =>
          err ← ws_Write it e bytes;
          match err with
          | Some _ => Printf ("Client disconnect" +:+ newline);; mux_GdbExit
          | None => mret tt
          end
      | Err _ => mret tt
      end
  | Recv InternalLog =>
      data ← receive InternalLog;
      let e := {| Type_ := "gdb"; Data := data |} in
      match json_Marshal e with
      | Ok bytes =>
          err ← ws_Write it e bytes;
          match err with
          | Some _ => Printf ("Client disconnect" +:+ newline);; mux_GdbExit
          | None => mret tt
          end
      | Err _ => mret tt
      end
  | Recv AsyncResults =>
      record ← receive AsyncResults;
      let e := {| Type_ := "async"; Data := record |} in
      match json_Marshal e with
      | Ok bytes =>
          err ← ws_Write it e bytes;
          match err with
          | Some _ => Printf ("Client disconnect" +:+ newline);; mux_GdbExit
          | None => mret tt
          end
      | Err _ => mret tt
      end
  | After =>
      require (bool_decide (interval ≤ wait it));;
      let e := {| Type_ := "heartbeat"; Data := of_string "" |} in
      match json_Marshal e with
      | Ok bytes =>
          err ← ws_Write it e bytes;
          match err with
          | Some _ => Printf ("Client disconnect" +:+ newline);; mux_GdbExit
          | None => mret tt
          end
      | Err _ => mret tt
      end
  end;;
  sleep (fin it).

(** What happens around and in the loop, in order: the session sends a value
    on a channel, or the loop runs one iteration. *)
Inductive action :=
| Send (c : channel) (v : any)
| Iterate (it : iteration).

Definition step (a : action) : L unit :=
  match a with
  | Send c v => send c v
  | Iterate it => iterate it
  end.

(** The loop has no exit: it runs for as long as the surroundings go on. *)
Fixpoint run (acts : list action) : L unit :=
  match acts with
  | [] => mret tt
  | a :: rest => step a;; run rest
  end.

(** The state that a run leaves ([m] itself when the runtime cannot take
    it). *)
Definition after (acts : list action) (m : mux) : mux :=
  match run acts m with
  | Some (_, m') => m'
  | None => m
  end.

(** The loop as the handler starts it: nothing written, nothing printed. *)
Definition start (queues : channel → list any) (t0 : Z) (g : GDB) : mux :=
  {| chan := queues; now := t0; ws := []; stdout := []; session := g; exits := 0 |}.

(** The tag the loop gives to the values of a channel. *)
Definition kind (c : channel) : string :=
  match c with
  | Console => "console"
  | Target => "target"
  | InternalLog => "gdb"
  | AsyncResults => "async"
  end.

(** The values sent on channel [c] during [acts], in order. *)
Definition sent_on (c : channel) (acts : list action) : list any :=
  omap (λ a, match a with
             | Send c' v => if bool_decide (c' = c) then Some v else None
             | Iterate _ => None
             end) acts.

(** The payloads of the envelopes tagged [k] among the writes, in order. *)
Definition written (k : string) (l : list write) : list any :=
  Data ∘ envelope <$> filter (λ x, Type_ (envelope x) = k) l.

(** The envelope of the timer case. *)
Definition heartbeat : webSockResult :=
  {| Type_ := "heartbeat"; Data := of_string "" |}.

(** Whether [json.Marshal] accepts the envelope. *)
Definition encodes (e : webSockResult) : bool := is_Ok (json_Marshal e).

(** The envelope that an iteration builds in state [m]: around the oldest
    value waiting on the channel whose case fires, or the heartbeat. *)
Definition built (it : iteration) (m : mux) : option webSockResult :=
  match fired it with
  | Recv c => (λ v, {| Type_ := kind c; Data := v |}) <$> head (chan m c)
  | After => Some heartbeat
  end.

(** Whether the Go runtime can take the iteration in state [m]: durations
    are not negative, a receive needs a waiting value, and the timer does
    not fire before [interval] has passed in the [select]. *)
Definition feasible (it : iteration) (m : mux) : bool :=
  bool_decide (0 ≤ wait it ∧ 0 ≤ enc it ∧ 0 ≤ fin it)
  && match fired it with
     | Recv c => bool_decide (chan m c ≠ [])
     | After => bool_decide (interval ≤ wait it)
     end.

(** The state that the statements shared by the five cases leave, for the
    envelope [e] and the channels [q] after the receive. *)
Definition outcome (it : iteration) (e : webSockResult)
    (q : channel → list any) (m : mux) : mux :=
  match json_Marshal e with
  | Ok b =>
      let t := now m + wait it + enc it in
      {| chan := q; now := t + fin it;
         ws := ws m ++ [{| at_time := t; envelope := e; bytes := b; failed := wr it |}];
         stdout := if wr it is Some _
                   then stdout m ++ ["Client disconnect" +:+ newline]
                   else stdout m;
         session := if wr it is Some _ then GdbExit (session m) else session m;
         exits := if wr it is Some _ then S (exits m) else exits m |}
  | Err _ =>
      {| chan := q; now := now m + wait it + fin it; ws := ws m;
         stdout := stdout m; session := session m; exits := exits m |}
  end.

(** The writes that returned an error. *)
Definition failures (l : list write) : list write :=
  filter (λ x, is_Some (failed x)) l.

(** Every heartbeat among the writes comes at least [interval] after every
    write before it. *)
Definition spaced (l : list write) : Prop :=
  ∀ i j x h,
    (i < j)%nat → l !! i = Some x → l !! j = Some h →
    Type_ (envelope h) = "heartbeat" →
    at_time x + interval ≤ at_time h.


End Multiplexer.

(** ** The rest of [main]: the providers, the arguments, the session *)

Section Bundles.
Context {File : Type}.

(** [http.Dir]: the provider rooted at a directory. *)
Context (Dir : string → FileSystem File).

(** [bundle_root_dir := gopath + "/src/github.com/sirnewton01/godbg/bundles"] *)
Definition bundle_root_dir (gopath : string) : string :=
  gopath +:+ "/src/github.com/sirnewton01/godbg/bundles".

(** [http.Dir(bundle_root_dir + "/" + bundleName + "/web")] *)
Definition bundle_web (gopath bundleName : string) : FileSystem File :=
  Dir (bundle_root_dir gopath +:+ "/" +:+ bundleName +:+ "/web").

(** [for idx, bundleName := range bundleNames], entered at index [idx]:
    [bundleFileSystems[idx] = http.Dir(...)].  The slice holds interface
    values; [None] is the nil that [make] puts in every slot. *)
Fixpoint fill_bundles (gopath : string) (idx : nat) (bundleNames : list string)
    (bundleFileSystems : list (option (FileSystem File)))
  : list (option (FileSystem File)) :=
  match bundleNames with
  | [] => bundleFileSystems
  | bundleName :: rest =>
      fill_bundles gopath (S idx) rest
        (<[idx := Some (bundle_web gopath bundleName)]> bundleFileSystems)
  end.

(** [make([]http.FileSystem, len(bundleNames), len(bundleNames))] and the
    loop over [bundleNames], the names that [file.Readdirnames(-1)] gave
    (none when the directory could not be read: both errors are dropped). *)
Definition bundleFileSystems (gopath : string) (bundleNames : list string)
  : list (option (FileSystem File)) :=
  fill_bundles gopath 0 bundleNames (replicate (length bundleNames) None).

(** [cfs := chainedFileSystem{fs: bundleFileSystems}], with the providers
    that the slots hold. *)
Definition main_cfs (gopath : string) (bundleNames : list string)
  : chainedFileSystem File :=
  {| fs := omap id (bundleFileSystems gopath bundleNames) |}.

End Bundles.

(** How [main] ends: it returns, or it panics with an error. *)
Inductive ending := Returns | Panics (err : error).

(** What the goroutine of [main] does, in order: it prints, builds the
    session, starts the two goroutines and waits for the session. *)
Inductive main_event :=
| Printed (text : string)
| NewGDB_called (executable srcFolder : string)
| Go_server
| Go_openBrowser (url : string)
| Wait_called.

Definition usage : string :=
  "Insufficient number of arguments." +:+ newline
  +:+ "Usage: godbg <path_to_executable> <path_to_src_folder>" +:+ newline.

(** [os.Args[i]]; [main] indexes only after it has checked the length. *)
Definition arg (Args : list string) (i : nat) : string := default "" (Args !! i).

(** [func main()], for the arguments [Args], the constructor [gdblib.NewGDB]
    and the result of [mygdb.Wait()]. *)
Definition main `{GdbLib} (Args : list string)
    (NewGDB : string → string → result GDB) (Wait : GDB → option error)
  : list main_event * ending :=
  if bool_decide (length Args ≠ 3%nat) then ([Printed usage], Returns)
  else
    match NewGDB (arg Args 1) (arg Args 2) with
    | Err err => ([NewGDB_called (arg Args 1) (arg Args 2)], Panics err)
    | Ok mygdb =>
        let started := [NewGDB_called (arg Args 1) (arg Args 2); Go_server;
                        Go_openBrowser "http://127.0.0.1:2023"; Wait_called] in
        match Wait mygdb with
        | Some err => (started, Panics err)
        | None => (started ++ [Printed ("Server finished" +:+ newline)], Returns)
        end
    end.

Section DispatcherVocabulary.
Context `{RT : Runtime}.

(** The call that belongs to an endpoint: its own operation, [os.Open] for
    the file endpoint, [GdbExit] for the exit endpoint. *)
Definition own_call (ep : endpoint) (x : call) : Prop :=
  match ep, x with
  | OnQuery q, Ask q' => q = q'
  | OnCommand c, Invoke c' _ => c = c'
  | FileGet, OsOpen _ => True
  | GdbExitEndpoint, Exit => True
  | _, _ => False
  end.

End DispatcherVocabulary.

Global Instance case_eq_dec : EqDecision case.
Proof. solve_decision. Defined.

Section MultiplexerVocabulary.
Context `{E : Events}.

(** Whether an action is an iteration of the loop that fires the case [k]. *)
Definition fires (k : case) (a : action) : bool :=
  match a with
  | Iterate it => bool_decide (fired it = k)
  | Send _ _ => false
  end.

(** How many iterations fire the case [k], and how many iterations there
    are. *)
Definition firings (k : case) (acts : list action) : nat :=
  length (filter (λ a, fires k a) acts).

Definition is_iteration (a : action) : bool :=
  match a with Iterate _ => true | Send _ _ => false end.

Definition iterations (acts : list action) : nat :=
  length (filter (λ a, is_iteration a) acts).

End MultiplexerVocabulary.

Section DeliveryVocabulary.
Context `{W : Wire}.





End DeliveryVocabulary.

(** ** A concrete instance, to run the code on

    A decoder for the JSON texts that [encoding/json] accepts into a
    [map[string]string] (an object whose members are strings or [null], or
    [null] itself), a stub session, a stub file system and string events.
    The decoder covers texts without [\u] escapes; the error texts are
    shortened. *)

Definition code (a : Ascii.ascii) : nat := Ascii.nat_of_ascii a.

Definition is_space (a : Ascii.ascii) : bool :=
  bool_decide (code a = 32 ∨ code a = 9 ∨ code a = 10 ∨ code a = 13)%nat.

Fixpoint skip_space (s : string) : string :=
  match s with
  | String a rest => if is_space a then skip_space rest else s
  | EmptyString => s
  end.

(** The character an escape stands for, after the backslash. *)
Definition unescape (a : Ascii.ascii) : option Ascii.ascii :=
  if bool_decide (code a = 34 ∨ code a = 92 ∨ code a = 47)%nat then Some a
  else if bool_decide (code a = 98)%nat then Some (Ascii.ascii_of_nat 8)
  else if bool_decide (code a = 102)%nat then Some (Ascii.ascii_of_nat 12)
  else if bool_decide (code a = 110)%nat then Some (Ascii.ascii_of_nat 10)
  else if bool_decide (code a = 114)%nat then Some (Ascii.ascii_of_nat 13)
  else if bool_decide (code a = 116)%nat then Some (Ascii.ascii_of_nat 9)
  else None.

Definition syntax_error : error := errors_New "invalid character in JSON input".
Definition unexpected_EOF : error := errors_New "unexpected EOF".
Definition type_error : error :=
  errors_New "json: cannot unmarshal value into Go value of type map[string]string".

(** A string literal, read from just after its opening quote: the string
    and the text that follows the closing quote. *)
Fixpoint scan_string (s : string) : result (string * string) :=
  match s with
  | EmptyString => Err unexpected_EOF
  | String a rest =>
      if bool_decide (code a = 34)%nat then Ok (EmptyString, rest)
      else if bool_decide (code a = 92)%nat then
        match rest with
        | EmptyString => Err unexpected_EOF
        | String e rest' =>
            match unescape e with
            | None => Err syntax_error
            | Some x =>
                match scan_string rest' with
                | Ok (v, tail) => Ok (String x v, tail)
                | Err err => Err err
                end
            end
        end
      else if bool_decide (code a < 32)%nat then Err syntax_error
      else
        match scan_string rest with
        | Ok (v, tail) => Ok (String a v, tail)
        | Err err => Err err
        end
  end.

(** The value of a member: a string, or [null] (which leaves the zero
    value); anything else is not a value for a [string]. *)
Definition scan_value (s : string) : result (string * string) :=
  match s with
  | EmptyString => Err unexpected_EOF
  | String a rest =>
      if bool_decide (code a = 34)%nat then scan_string rest
      else if String.prefix "null" s then Ok (EmptyString, String.substring 4 (String.length s - 4)%nat s)
      else Err type_error
  end.

(** The members of an object, read from just after [{] or [,]. *)
Fixpoint scan_members (fuel : nat) (s : string) (m : gmap string string)
  : result (gmap string string) :=
  match fuel with
  | O => Err unexpected_EOF
  | S fuel =>
      match skip_space s with
      | EmptyString => Err unexpected_EOF
      | String q rest =>
          if bool_decide (code q = 34)%nat then
            match scan_string rest with
            | Err err => Err err
            | Ok (key, rest) =>
                match skip_space rest with
                | EmptyString => Err unexpected_EOF
                | String colon rest =>
                    if bool_decide (code colon = 58)%nat then
                      match scan_value (skip_space rest) with
                      | Err err => Err err
                      | Ok (v, rest) =>
                          match skip_space rest with
                          | EmptyString => Err unexpected_EOF
                          | String sep rest =>
                              if bool_decide (code sep = 44)%nat
                              then scan_members fuel rest (<[key := v]> m)
                              else if bool_decide (code sep = 125)%nat
                              then Ok (<[key := v]> m)
                              else Err syntax_error
                          end
                      end
                    else Err syntax_error
                end
            end
          else Err syntax_error
      end
  end.

(** [json.NewDecoder(body).Decode(&parms)] for [parms] a
    [map[string]string]: the first JSON value of the body is decoded into
    the map; members that the text does not mention are left as they are. *)
Definition decode_object (body : string) (parms : gmap string string)
  : gmap string string * option error :=
  match skip_space body with
  | EmptyString => (parms, Some (errors_New "EOF"))
  | String a rest =>
      if bool_decide (code a = 123)%nat then
        match skip_space rest with
        | EmptyString => (parms, Some unexpected_EOF)
        | String b _ =>
            if bool_decide (code b = 125)%nat then (parms, None)
            else
              match scan_members (String.length rest) rest parms with
              | Ok m => (m, None)
              | Err err => (parms, Some err)
              end
        end
      else if String.prefix "null" (String a rest) then (∅, None)
      else (parms, Some type_error)
  end.

(** A stub session: whether gdb still runs, the threads, the selected one,
    the breakpoints. *)
Record stub := {
  alive : bool;
  threads : list string;
  current : string;
  breakpoints : list string;
}.

Definition gone : error := errors_New "gdb has exited".

Definition stub_ask (q : query) (g : stub) : result (list string) * stub :=
  if alive g then
    match q with
    | ThreadListIds => (Ok (threads g), g)
    | StackInfoFrame => (Ok [current g], g)
    | BreakList => (Ok (breakpoints g), g)
    end
  else (Err gone, g).

Definition stub_invoke (c : command) (parms : gmap string string) (g : stub)
  : result string * stub :=
  if alive g then
    match c with
    | ThreadSelect =>
        let id := default "" (parms !! "ThreadId") in
        if bool_decide (id ∈ threads g)
        then (Ok id, {| alive := true; threads := threads g; current := id;
                        breakpoints := breakpoints g |})
        else (Err (errors_New ("Invalid thread ID: " +:+ id)), g)
    | ThreadInfo => (Ok (default "" (parms !! "ThreadId")), g)
    | BreakInsert =>
        let loc := default "" (parms !! "Location") in
        (Ok loc, {| alive := true; threads := threads g; current := current g;
                    breakpoints := (breakpoints g ++ [loc])%list |})
    | _ => (Ok "", g)
    end
  else (Err gone, g).

Definition stub_exit (g : stub) : stub :=
  {| alive := false; threads := threads g; current := current g;
     breakpoints := breakpoints g |}.

#[local] Instance stub_gdblib : GdbLib := {|
  GDB := stub;
  QResult := λ _, list string;
  Parms := λ _, gmap string string;
  Result := λ _, string;
  ask := stub_ask;
  invoke := stub_invoke;
  GdbExit := stub_exit;
|}.

(** The stub encoders: a value that [json.Marshal] refuses is played by the
    string [NaN]. *)
Definition unsupported : error := errors_New "json: unsupported value: NaN".

Definition stub_marshal (v : string) : result string :=
  if bool_decide (v = "NaN") then Err unsupported else Ok ("<" +:+ v +:+ ">").

Definition stub_marshal_list (l : list string) : result string :=
  if bool_decide ("NaN" ∈ l) then Err unsupported
  else Ok ("[" +:+ String.concat "," l +:+ "]").

(** The stub operating system: one file. *)
Definition stub_open (name : string) : result string :=
  if bool_decide (name = "/src/main.go") then Ok "package main"
  else Err (errors_New ("open " +:+ name +:+ ": no such file or directory")).

#[local] Instance stub_runtime : Runtime := {|
  zero := λ _, (∅ : gmap string string);
  Decode := λ _, decode_object;
  Decode_map := decode_object;
  Marshal_q := λ _, stub_marshal_list;
  Marshal := λ _, stub_marshal;
  osFile := string;
  os_Open := stub_open;
  io_Copy := λ content, (content, None);
|}.

(** String events, and an encoder for them. *)
#[local] Instance string_events : Events := {|
  any := string;
  of_string := λ s, s;
|}.

#[local] Instance string_wire : Wire := {|
  json_Marshal := λ e,
    if bool_decide (Data e = "NaN") then Err unsupported
    else Ok ("{Type:" +:+ Type_ e +:+ ",Data:" +:+ Data e +:+ "}");
|}.

(** The files of a bundle: their content, and the entries they list when
    they are directories. *)
Record asset := { content : string; entries : list string }.

#[local] Instance asset_HttpFile : HttpFile asset string := {|
  Readdir := λ f count, (entries f, None);
  Stat := λ f, Ok (content f);
|}.

(** An encoder that accepts every envelope. *)
Definition plain_wire : Wire := {|
  json_Marshal := λ e, Ok ("{Type:" +:+ Type_ e +:+ ",Data:" +:+ Data e +:+ "}");
|}.

(** A provider serving the assets of one bundle. *)
Definition bundle (assets : gmap string asset) : FileSystem asset :=
  {| Open := λ name,
       match assets !! name with
       | Some content => Ok content
       | None => Err (errors_New ("open " +:+ name +:+ ": no such file or directory"))
       end |}.

Definition stub0 : stub :=
  {| alive := true; threads := ["1"; "2"]; current := "1"; breakpoints := [] |}.

(** Two bundles: the first has a script, the second a page and a
    directory with two entries. *)
Definition bundle_a : FileSystem asset :=
  bundle {[ "/app.js" := {| content := "run()"; entries := [] |} ]}.

Definition bundle_b : FileSystem asset :=
  bundle {[ "/index.html" := {| content := "<html>"; entries := [] |};
            "/img" := {| content := ""; entries := ["a.png"; "b.png"] |} ]}.

Definition two_bundles : chainedFileSystem asset :=
  {| fs := [bundle_a; bundle_b] |}.

(** The error of a websocket whose client is gone. *)
Definition broken_pipe : error := errors_New "write: broken pipe".

(** A console line is sent and received but its write fails; thirty
    seconds later the timer fires and the heartbeat is written, and fails
    too. *)
Definition console_then_heartbeat (first second : option error) : list action :=
  [ Send Console "Breakpoint 1, main ()";
    Iterate {| fired := Recv Console; wait := 5; enc := 1; wr := first; fin := 1 |};
    Iterate {| fired := After; wait := interval; enc := 2; wr := second; fin := 1 |} ].

(** Three console lines sent before the loop receives them, a target line
    in between. *)
Definition three_lines : list action :=
  [ Send Console "one"; Send Console "two"; Send Target "out";
    Iterate {| fired := Recv Console; wait := 0; enc := 1; wr := None; fin := 0 |};
    Send Console "three";
    Iterate {| fired := Recv Target; wait := 0; enc := 1; wr := None; fin := 0 |};
    Iterate {| fired := Recv Console; wait := 0; enc := 1; wr := None; fin := 0 |};
    Iterate {| fired := Recv Console; wait := 0; enc := 1; wr := None; fin := 0 |} ].

(** The loop started at clock 100 on empty channels with the stub session. *)
Definition mux0 : mux := start (λ _, []) 100 stub0.

(** The loop after a console write that failed. *)
Definition mux_failed : mux :=
  after [ Send Console "Breakpoint 1, main ()";
          Iterate {| fired := Recv Console; wait := 5; enc := 1;
                     wr := Some broken_pipe; fin := 1 |} ] mux0.

(** The timer firing after thirty seconds, with a write that fails. *)
Definition timer_fires : iteration :=
  {| fired := After; wait := interval; enc := 2; wr := Some broken_pipe; fin := 1 |}.

(** The loop with a value that does not encode waiting before another. *)
Definition mux_nan : mux :=
  after [ Send Console "NaN"; Send Console "next" ] mux0.

Definition console_fires : iteration :=
  {| fired := Recv Console; wait := 3; enc := 1; wr := None; fin := 1 |}.

(** A text with a quoted member name and a quoted value. *)
Definition quote : string := String (Ascii.ascii_of_nat 34) "".

Definition member (name value : string) : string :=
  "{" +:+ quote +:+ name +:+ quote +:+ ":" +:+ quote +:+ value +:+ quote +:+ "}".

(** [http.Dir] for a tree with two bundles, [base] and [ui]. *)
Definition stub_Dir (path : string) : FileSystem asset :=
  if bool_decide (path = "/go/src/github.com/sirnewton01/godbg/bundles/ui/web")
  then bundle_a
  else if bool_decide (path = "/go/src/github.com/sirnewton01/godbg/bundles/base/web")
  then bundle_b
  else bundle ∅.

(** A runtime whose [io.Copy] stops with an error after seven bytes. *)
Definition short_read : error := errors_New "read: input/output error".

Definition flaky_runtime : Runtime := {|
  zero := λ _, (∅ : gmap string string);
  Decode := λ _, decode_object;
  Decode_map := decode_object;
  Marshal_q := λ _, stub_marshal_list;
  Marshal := λ _, stub_marshal;
  osFile := string;
  os_Open := stub_open;
  io_Copy := λ content, (String.substring 0 7 content, Some short_read);
|}.

(** * Properties *)

(** ** Resource resolver *)

Section ResolverFacts.
Context {File FileInfo : Type} `{HF : HttpFile File FileInfo}.
Implicit Types (p q : FileSystem File) (l : list (FileSystem File)).

(** A provider that opens the name ends the loop wherever it stands, as
    long as those before it fail. *)
Lemma Open_from_first_match l name lastIdx i k p f :
  l !! k = Some p →
  Open p name = Ok f →
  (∀ j q, (j < k)%nat → l !! j = Some q → is_Err (Open q name)) →
  lastIdx = i + Z.of_nat (length l) - 1 →
  Open_from lastIdx i l name = Ok {| embedded := f |}.
Proof.
  revert i k. induction l as [|q l IH]; intros i k Hk Hp Hbefore Hlast.
  - discriminate.
  - destruct k as [|k]; simpl in *.
    + injection Hk as ->. by rewrite Hp.
    + pose proof (Hbefore 0%nat q ltac:(lia) eq_refl) as Hq.
      destruct (Open q name) as [?|e]; [done|].
      apply lookup_lt_Some in Hk as Hlen.
      rewrite bool_decide_eq_false_2 by lia.
      apply (IH (i + 1) k); [done..| |lia].
      intros j q' Hj Hq'. apply (Hbefore (S j) q'); [lia|done].
Qed.

(** When every provider fails, the loop ends at the last index with the
    error met there. *)
Lemma Open_from_all_fail l name lastIdx i p e :
  list.last l = Some p →
  Open p name = Err e →
  (∀ q, q ∈ l → is_Err (Open q name)) →
  lastIdx = i + Z.of_nat (length l) - 1 →
  Open_from lastIdx i l name = Err e.
Proof.
  revert i. induction l as [|q l IH]; intros i Hp He Hall Hlast; [done|].
  simpl. destruct l as [|q' l].
  - simpl in *. injection Hp as ->. rewrite He.
    by rewrite bool_decide_eq_true_2 by lia.
  - pose proof (Hall q ltac:(left)) as Hq.
    destruct (Open q name) as [?|e']; [done|].
    rewrite bool_decide_eq_false_2 by (simpl in Hlast; lia).
    apply IH; [done|done| |simpl in *; lia].
    intros q'' Hin. apply Hall. by right.
Qed.

(** C3. For every provider list and asset name, [Open] returns the handle
    of the first provider, in list order, that opens the name; and when
    every provider fails, the error returned is the error of the last
    provider. *)
Theorem chained_Open_first_match_last_error (cfs : chainedFileSystem File) name :
  (∀ k p f,
     fs cfs !! k = Some p →
     Open p name = Ok f →
     (∀ j q, (j < k)%nat → fs cfs !! j = Some q → is_Err (Open q name)) →
     chained_Open cfs name = Ok {| embedded := f |})
  ∧ (∀ p e,
       list.last (fs cfs) = Some p →
       Open p name = Err e →
       (∀ q, q ∈ fs cfs → is_Err (Open q name)) →
       chained_Open cfs name = Err e).
Proof.
  split.
  - intros k p f Hk Hp Hbefore. unfold chained_Open.
    by apply (Open_from_first_match _ _ _ _ k p); [..|lia].
  - intros p e Hp He Hall. unfold chained_Open.
    by apply (Open_from_all_fail _ _ _ _ p); [..|lia].
Qed.

(** Without providers the loop body never runs and the fall-through error
    is returned. *)
Lemma chained_Open_no_provider name :
  chained_Open (File := File) {| fs := [] |} name
  = Err (errors_New "Algorithm failure").
Proof. reflexivity. Qed.

(** Whatever [Open] returns without error is a [noReaddirFile]; its result
    is decided by the providers alone. *)
Lemma chained_Open_Ok_inv (cfs : chainedFileSystem File) name h :
  chained_Open cfs name = Ok h →
  ∃ p, p ∈ fs cfs ∧ Open p name = Ok (embedded h).
Proof.
  unfold chained_Open. generalize (Z.of_nat (length (fs cfs)) - 1) 0.
  induction (fs cfs) as [|q l IH]; intros lastIdx i; simpl; [done|].
  destruct (Open q name) as [f|e] eqn:Hq.
  - intros [= <-]. exists q. split; [left|done].
  - case_bool_decide; [done|].
    intros (p & Hin & Hp)%IH. exists p. split; [by right|done].
Qed.

(** C9. Every handle that the resolver returns lists no entries, for every
    count and whatever the provider's own file would list. *)
Theorem resolved_handle_lists_nothing
    (cfs : chainedFileSystem File) name (h : noReaddirFile File) (count : Z) :
  chained_Open cfs name = Ok h →
  Readdir (F := noReaddirFile File) h count = ([], None).
Proof. intros _. reflexivity. Qed.

End ResolverFacts.

(** ** Command dispatcher *)

(** Unfolds a request down to the calls of the interfaces. *)
Ltac handler_unfold :=
  unfold serve, handler, decode_error,
    handle_thread_listids, handle_thread_select, handle_thread_info,
    handle_frame_stackinfo, handle_frame_stacklist, handle_frame_variableslist,
    handle_file_get, handle_exec_next, handle_exec_step, handle_exec_continue,
    handle_exec_run, handle_exec_interrupt, handle_breakpoint_list,
    handle_breakpoint_insert, handle_breakpoint_enable,
    handle_breakpoint_disable, handle_gdb_exit,
    gdb, gdb0, gdb_exit, open, copy, err_of, WriteHeader, Write,
    mbind, M_bind, mret, M_ret in *;
  cbn [mygdb calls w fst snd] in *.

Section DispatcherFacts.
Context {G : GdbLib} {RT : Runtime}.
Implicit Types (r : Request) (g : GDB) (e : error).

(** A query that fails: 400 with the error text, except for the breakpoint
    list. *)
Lemma query_error_status q r g g' e :
  ask q g = (Err e, g') →
  w (serve (OnQuery q) r g)
  = {| status := Some (if q is BreakList then 500 else 400); body := Error e |}.
Proof. intros Hq. destruct q; handler_unfold; by rewrite Hq. Qed.

(** A decoded command that fails: 400 with the error text. *)
Lemma command_error_status c r g g' p e :
  Decode c (Body r) (zero c) = (p, None) →
  invoke c p g = (Err e, g') →
  w (serve (OnCommand c) r g) = {| status := Some 400; body := Error e |}.
Proof. intros Hd Hi. destruct c; handler_unfold; by rewrite Hd; cbn; rewrite Hi. Qed.

(** C1, as the code has it.  When the body is decoded (or none is needed)
    and the operation returns an error, the response carries the text of
    the error, with status 400 for every endpoint except
    [/handle/breakpoint/list], which answers 500. *)
Theorem backend_error_is_400_or_500_for_the_breakpoint_list r g g' e :
  (∀ q,
     ask q g = (Err e, g') →
     w (serve (OnQuery q) r g)
     = {| status := Some (match q with
                          | BreakList => 500
                          | ThreadListIds | StackInfoFrame => 400
                          end);
          body := Error e |})
  ∧ (∀ c p,
       Decode c (Body r) (zero c) = (p, None) →
       invoke c p g = (Err e, g') →
       w (serve (OnCommand c) r g) = {| status := Some 400; body := Error e |}).
Proof.
  split.
  - intros q Hq. rewrite (query_error_status _ _ _ _ _ Hq). by destruct q.
  - intros c p Hd Hi. by apply (command_error_status c r g g' p e).
Qed.

(** C2. When decoding the body fails, the response is 400 with the text of
    the decode error, no call leaves the bridge and the session is the one
    the request found. *)
Theorem decode_failure_is_400_without_call (ep : endpoint) r g e :
  decodes ep →
  decode_error ep r = Some e →
  serve ep r g
  = {| mygdb := g; calls := []; w := {| status := Some 400; body := Error e |} |}.
Proof.
  intros Hep He. destruct ep as [q|c| |]; try done.
  - destruct c; handler_unfold;
      destruct (Decode _ (Body r) _) as [p [e'|]]; cbn in *; by simplify_eq.
  - handler_unfold.
    destruct (Decode_map (Body r) ∅) as [p [e'|]]; cbn in *; by simplify_eq.
Qed.

(** C7. When the operation of an endpoint that returns data succeeds, the
    response is 500 with the text of the encoding error if [json.Marshal]
    fails, and 200 with the encoded result if it succeeds. *)
Theorem encoding_decides_500_or_200 r g :
  (∀ q v g',
     ask q g = (Ok v, g') →
     w (serve (OnQuery q) r g)
     = match Marshal_q q v with
       | Err e => {| status := Some 500; body := Error e |}
       | Ok resultBytes => {| status := Some 200; body := resultBytes |}
       end)
  ∧ (∀ c p v g',
       returns_data (OnCommand c) →
       Decode c (Body r) (zero c) = (p, None) →
       invoke c p g = (Ok v, g') →
       w (serve (OnCommand c) r g)
       = match Marshal c v with
         | Err e => {| status := Some 500; body := Error e |}
         | Ok resultBytes => {| status := Some 200; body := resultBytes |}
         end).
Proof.
  split.
  - intros q v g' Hq. destruct q; handler_unfold; rewrite Hq;
      by destruct (Marshal_q _ v).
  - intros c p v g' Hc Hd Hi. destruct c; try done; handler_unfold;
      rewrite Hd; cbn; rewrite Hi; by destruct (Marshal _ v).
Qed.

(** C8, as the code has it.  An endpoint that takes parameters calls its
    operation exactly when decoding returns no error, and with the value
    that decoding left in the parameter: so with the zero value when the
    body leaves the parameter untouched, and [/handle/file/get] opens the
    empty path when the body has no [File]. *)
Theorem operation_called_with_what_decoding_left r g :
  (∀ c p err,
     Decode c (Body r) (zero c) = (p, err) →
     calls (serve (OnCommand c) r g) = if err is None then [Invoke c p] else [])
  ∧ (∀ parms err,
       Decode_map (Body r) ∅ = (parms, err) →
       calls (serve FileGet r g)
       = if err is None then [OsOpen (index parms "File")] else [])
  ∧ (∀ c,
       Decode c (Body r) (zero c) = (zero c, None) →
       calls (serve (OnCommand c) r g) = [Invoke c (zero c)])
  ∧ (∀ parms,
       Decode_map (Body r) ∅ = (parms, None) →
       parms !! "File" = None →
       calls (serve FileGet r g) = [OsOpen ""]).
Proof.
  assert (Hc : ∀ c p err,
    Decode c (Body r) (zero c) = (p, err) →
    calls (serve (OnCommand c) r g) = if err is None then [Invoke c p] else []).
  { intros c p err Hd. destruct c; handler_unfold; rewrite Hd;
      destruct err; cbn; try done;
      destruct (invoke _ p g) as [[v|e] g']; cbn; try done;
      by destruct (Marshal _ v). }
  assert (Hf : ∀ parms err,
    Decode_map (Body r) ∅ = (parms, err) →
    calls (serve FileGet r g)
    = if err is None then [OsOpen (index parms "File")] else []).
  { intros parms err Hd. handler_unfold. rewrite Hd. destruct err; cbn; [done|].
    destruct (os_Open _) as [file|e]; cbn; [|done].
    destruct (io_Copy file) as [b [e|]]; by case_bool_decide. }
  split_and!; [done|done|..].
  - intros c Hd. by rewrite (Hc _ _ _ Hd).
  - intros parms Hd Hnone. rewrite (Hf _ _ Hd). unfold index. by rewrite Hnone.
Qed.

End DispatcherFacts.

(** ** Event multiplexer *)

Section MultiplexerFacts.
Context `{G : GdbLib} `{W : Wire}.
Implicit Types (m : mux) (it : iteration) (acts : list action) (c : channel).

(** The five cases of the [select] run the same statements: an iteration
    is its feasibility test, the receive, and [outcome]. *)
Lemma iterate_eq it m :
  iterate it m
  = if bool_decide (0 ≤ wait it ∧ 0 ≤ enc it ∧ 0 ≤ fin it) then
      match fired it with
      | Recv c =>
          match chan m c with
          | [] => None
          | v :: rest =>
              Some (tt, outcome it {| Type_ := kind c; Data := v |}
                          (<[c := rest]> (chan m)) m)
          end
      | After =>
          if bool_decide (interval ≤ wait it)
          then Some (tt, outcome it heartbeat (chan m) m)
          else None
      end
    else None.
Proof.
  unfold iterate, outcome, heartbeat, mbind, L_bind, mret, L_ret, require, sleep,
    receive, ws_Write, Printf, mux_GdbExit.
  case_bool_decide; [|done].
  destruct (fired it) as [[]|]; cbn;
    try (destruct (chan m _); [done|]); try case_bool_decide; try done;
    cbn; destruct (json_Marshal _); try done; cbn; by destruct (wr it).
Qed.

Lemma iterate_feasible it m : is_Some (iterate it m) ↔ feasible it m.
Proof.
  rewrite iterate_eq. unfold feasible.
  case_bool_decide; cbn; [|split; [by intros [??]|done]].
  destruct (fired it) as [c|].
  - destruct (chan m c); cbn; (split; [by intros [??]|by eauto]).
  - case_bool_decide; (split; [by intros [??]|by eauto]).
Qed.

(** An iteration that runs leaves [outcome] for the envelope it built. *)
Lemma iterate_outcome it m m' :
  iterate it m = Some (tt, m') →
  ∃ e q,
    built it m = Some e ∧ m' = outcome it e q m
    ∧ 0 ≤ wait it ∧ 0 ≤ enc it ∧ 0 ≤ fin it
    ∧ match fired it with
      | Recv c => ∃ v rest, chan m c = v :: rest ∧ q = <[c := rest]> (chan m)
                            ∧ e = {| Type_ := kind c; Data := v |}
      | After => q = chan m ∧ interval ≤ wait it ∧ e = heartbeat
      end.
Proof.
  rewrite iterate_eq. unfold built. case_bool_decide as Ht; [|done].
  destruct (fired it) as [c|].
  - destruct (chan m c) as [|v rest] eqn:Hc; [done|]. intros [= <-].
    eexists _, _. split_and!; try done; try lia. by exists v, rest.
  - case_bool_decide; [|done]. intros [= <-].
    eexists _, _. split_and!; try done; lia.
Qed.

Lemma run_cons a acts m :
  run (a :: acts) m
  = match step a m with Some (_, m1) => run acts m1 | None => None end.
Proof. unfold run at 1; fold run. unfold mbind, L_bind. by destruct (step a m) as [[[] ?]|]. Qed.


Lemma kind_not_heartbeat c : kind c ≠ "heartbeat".
Proof. by destruct c. Qed.

Lemma written_snoc k (l : list write) x :
  written k (l ++ [x])
  = written k l ++ (if decide (Type_ (envelope x) = k) then [Data (envelope x)] else []).
Proof.
  unfold written. rewrite list.filter_app, fmap_app. f_equal.
  rewrite filter_cons, filter_nil. by case_decide.
Qed.

(** C10. When [json.Marshal] fails on the envelope of a value received
    from a channel, the value is gone from the channel, nothing is written
    to the websocket, nothing is printed, [GdbExit] is not called, and the
    loop goes on with what comes next. *)
Theorem encoding_failure_drops_the_event it m c v rest e acts :
  fired it = Recv c →
  chan m c = v :: rest →
  json_Marshal {| Type_ := kind c; Data := v |} = Err e →
  0 ≤ wait it → 0 ≤ enc it → 0 ≤ fin it →
  let m' := {| chan := <[c := rest]> (chan m); now := now m + wait it + fin it;
               ws := ws m; stdout := stdout m; session := session m;
               exits := exits m |} in
  iterate it m = Some (tt, m')
  ∧ run (Iterate it :: acts) m = run acts m'.
Proof.
  intros Hc Hv He ??? m'.
  assert (iterate it m = Some (tt, m')) as Hit.
  { rewrite iterate_eq, bool_decide_eq_true_2, Hc, Hv by done.
    unfold outcome. by rewrite He. }
  split; [done|]. rewrite run_cons. cbn. by rewrite Hit.
Qed.

(** The writes of a run extend the writes before it; [GdbExit] is called
    and the line printed once for each of the new writes that failed. *)
Lemma run_exits acts m m' :
  run acts m = Some (tt, m') →
  ∃ new,
    ws m' = ws m ++ new
    ∧ exits m' = (exits m + length (failures new))%nat
    ∧ stdout m'
      = stdout m ++ replicate (length (failures new)) ("Client disconnect" +:+ newline).
Proof.
  revert m. induction acts as [|a acts IH]; intros m.
  - intros [= <-]. exists []. cbn. by rewrite !app_nil_r, Nat.add_0_r.
  - rewrite run_cons. destruct (step a m) as [[[] m1]|] eqn:Ha; [|done].
    intros (new & Hws & Hex & Hout)%IH.
    assert (∃ one, ws m1 = ws m ++ one
      ∧ exits m1 = (exits m + length (failures one))%nat
      ∧ stdout m1 = stdout m
          ++ replicate (length (failures one)) ("Client disconnect" +:+ newline))
      as (one & Hws1 & Hex1 & Hout1).
    { destruct a as [c v|it]; cbn in Ha.
      - injection Ha as <-. exists []. cbn. by rewrite !app_nil_r, Nat.add_0_r.
      - apply iterate_outcome in Ha as (e & q & _ & -> & _).
        unfold outcome. destruct (json_Marshal e) as [b|]; cbn.
        + eexists [_]. split; [done|]. unfold failures.
          rewrite filter_cons, filter_nil. cbn.
          destruct (wr it); cbn.
          * rewrite decide_True by eauto. cbn. split; [lia|done].
          * rewrite decide_False by (by intros [??]). cbn.
            by rewrite app_nil_r, Nat.add_0_r.
        + exists []. cbn. by rewrite !app_nil_r, Nat.add_0_r. }
    exists (one ++ new). unfold failures in *.
    rewrite Hws, Hws1, Hex, Hex1, Hout, Hout1, list.filter_app, length_app.
    rewrite replicate_add, <-!(assoc_L (++)). split_and!; [done|lia|done].
Qed.

(** X21. The body of the loop has no [return] and no [break]: whatever
    was written or failed before, an iteration that the runtime can take is
    taken, and it writes the envelope it built whenever that encodes; over
    a run, the line is printed and [GdbExit] called once for every write
    that failed. *)
Theorem loop_goes_on_after_failed_write :
  (∀ it m,
     feasible it m →
     ∃ m', iterate it m = Some (tt, m')
       ∧ ∀ e b, built it m = Some e → json_Marshal e = Ok b →
           ws m' = ws m ++ [{| at_time := now m + wait it + enc it;
                               envelope := e; bytes := b; failed := wr it |}])
  ∧ (∀ acts queues t0 g m',
       run acts (start queues t0 g) = Some (tt, m') →
       exits m' = length (failures (ws m'))
       ∧ stdout m' = replicate (exits m') ("Client disconnect" +:+ newline)).
Proof.
  split.
  - intros it m [[[] m'] Hit]%iterate_feasible. exists m'. split; [done|].
    intros e b He Hb.
    apply iterate_outcome in Hit as (e' & q & He' & -> & _).
    assert (e' = e) as -> by congruence.
    unfold outcome. by rewrite Hb.
  - intros acts queues t0 g m' (new & Hws & Hex & Hout)%run_exits.
    cbn in *. subst new. by rewrite Hout, Hex.
Qed.

Lemma sent_on_cons c a acts :
  sent_on c (a :: acts) = sent_on c [a] ++ sent_on c acts.
Proof. unfold sent_on. cbn. by destruct a as [c' v|]; [case_bool_decide|]. Qed.


Lemma spaced_snoc (l : list write) y :
  spaced l →
  (Type_ (envelope y) = "heartbeat" → ∀ x, x ∈ l → at_time x + interval ≤ at_time y) →
  spaced (l ++ [y]).
Proof.
  intros Hl Hy i j x h Hij Hi Hj Hh.
  destruct (decide (j < length l)%nat) as [Hlt|Hge].
  - rewrite lookup_app_l in Hi, Hj by lia. by apply (Hl i j).
  - rewrite lookup_app_r in Hj by lia.
    apply list_lookup_singleton_Some in Hj as [Hj <-].
    rewrite lookup_app_l in Hi by lia.
    apply Hy; [done|]. by eapply list_elem_of_lookup_2.
Qed.

(** No write is later than the clock, and heartbeats keep their distance:
    both survive every step. *)
Lemma step_spaced a m m1 :
  step a m = Some (tt, m1) →
  (∀ x, x ∈ ws m → at_time x ≤ now m) ∧ spaced (ws m) →
  (∀ x, x ∈ ws m1 → at_time x ≤ now m1) ∧ spaced (ws m1).
Proof.
  intros Ha [Hnow Hsp]. destruct a as [c v|it]; cbn in Ha.
  - by injection Ha as <-.
  - apply iterate_outcome in Ha as (e & q & _ & -> & Hw & He & Hf & Hcase).
    unfold outcome. destruct (json_Marshal e) as [b|]; cbn.
    + split.
      * intros x [Hx| ->%list_elem_of_singleton]%elem_of_app; cbn; [|lia].
        specialize (Hnow x Hx). lia.
      * apply spaced_snoc; [done|]. cbn. intros Hhb x Hx.
        specialize (Hnow x Hx). destruct (fired it) as [c|].
        -- destruct Hcase as (v & rest & _ & _ & ->). cbn in Hhb.
           by destruct (kind_not_heartbeat c).
        -- destruct Hcase as (_ & Hi & _). lia.
    + split; [|done]. intros x Hx. specialize (Hnow x Hx). lia.
Qed.

Lemma run_spaced acts m m' :
  run acts m = Some (tt, m') →
  (∀ x, x ∈ ws m → at_time x ≤ now m) ∧ spaced (ws m) →
  (∀ x, x ∈ ws m' → at_time x ≤ now m') ∧ spaced (ws m').
Proof.
  revert m. induction acts as [|a acts IH]; intros m.
  - by intros [= <-].
  - rewrite run_cons. destruct (step a m) as [[[] m1]|] eqn:Ha; [|done].
    intros Hrun Hm. apply (IH _ Hrun). by apply (step_spaced a m).
Qed.

(** C5. The timer of the loop is set to 30 seconds and is set anew in
    every iteration: in every run of the loop, a heartbeat is written at
    least [interval] after every write before it, data or heartbeat.  When
    the timer case fires, the heartbeat envelope, with the empty string as
    payload, is written; and a write that fails, of a heartbeat as of any
    other envelope, has the line printed and [GdbExit] called. *)
Theorem heartbeat_after_silence :
  interval = 30 * 1000000000
  ∧ (∀ acts queues t0 g m',
       run acts (start queues t0 g) = Some (tt, m') →
       ∀ i j x h,
         (i < j)%nat → ws m' !! i = Some x → ws m' !! j = Some h →
         Type_ (envelope h) = "heartbeat" →
         at_time x + interval ≤ at_time h)
  ∧ (∀ it m b,
       fired it = After →
       interval ≤ wait it → 0 ≤ enc it → 0 ≤ fin it →
       json_Marshal heartbeat = Ok b →
       ∃ m', iterate it m = Some (tt, m')
         ∧ ws m' = ws m ++ [{| at_time := now m + wait it + enc it;
                               envelope := heartbeat; bytes := b;
                               failed := wr it |}])
  ∧ (∀ it m m' x,
       iterate it m = Some (tt, m') →
       ws m' = ws m ++ [x] →
       is_Some (failed x) →
       stdout m' = stdout m ++ ["Client disconnect" +:+ newline]
       ∧ session m' = GdbExit (session m)
       ∧ exits m' = S (exits m)).
Proof.
  split_and!.
  - reflexivity.
  - intros acts queues t0 g m' Hrun.
    apply run_spaced in Hrun as [_ Hsp]; [exact Hsp|].
    split; [by intros x ?%elem_of_nil|]. by intros i j x h _ ?.
  - intros it m b Hf Hi He Hn Hb.
    assert (0 ≤ wait it) by (unfold interval, Second in Hi; lia).
    eexists. split.
    + rewrite iterate_eq, Hf, !bool_decide_eq_true_2 by done. done.
    + unfold outcome. by rewrite Hb.
  - intros it m m' x (e & q & _ & -> & _)%iterate_outcome.
    unfold outcome. destruct (json_Marshal e) as [b|]; cbn.
    + intros [= <-]%(inj (app (ws m))). cbn. by intros [e' ->].
    + intros Hws _. apply (f_equal length) in Hws.
      rewrite length_app in Hws. cbn in Hws. lia.
Qed.

End MultiplexerFacts.

(** * The code on concrete requests *)

(** ** Resolver *)

Lemma chained_Open_first_match_last_error_witness :
  chained_Open two_bundles "/index.html"
  = Ok {| embedded := {| content := "<html>"; entries := [] |} |}
  ∧ chained_Open two_bundles "/nope"
    = Err (errors_New "open /nope: no such file or directory").
Proof.
  split.
  - apply (proj1 (chained_Open_first_match_last_error two_bundles "/index.html")
             1%nat bundle_b); [reflexivity|reflexivity|].
    intros [|j] q Hj Hq; [|lia]. cbn in Hq. injection Hq as <-. reflexivity.
  - apply (proj2 (chained_Open_first_match_last_error two_bundles "/nope")
             bundle_b); [reflexivity|reflexivity|].
    intros q Hq. apply list_elem_of_In in Hq.
    destruct Hq as [<-|[<-|[]]]; reflexivity.
Defined.

Lemma resolved_handle_lists_nothing_witness :
  chained_Open two_bundles "/img"
  = Ok {| embedded := {| content := ""; entries := ["a.png"; "b.png"] |} |}
  ∧ Readdir {| content := ""; entries := ["a.png"; "b.png"] |} (-1)
    = (["a.png"; "b.png"], None)
  ∧ Readdir (F := noReaddirFile asset)
      {| embedded := {| content := ""; entries := ["a.png"; "b.png"] |} |} (-1)
    = ([], None).
Proof.
  split; [reflexivity|]. split; [reflexivity|].
  apply (resolved_handle_lists_nothing two_bundles "/img").
  reflexivity.
Defined.

(** ** Dispatcher *)

(** C1, as stated, fails: the session has ended, [BreakList] returns an
    error, and [/handle/breakpoint/list] answers 500, not 400. *)
Lemma breakpoint_list_answers_500 :
  ¬ (∀ q r g g' e,
       ask q g = (Err e, g') →
       w (serve (OnQuery q) r g) = {| status := Some 400; body := Error e |}).
Proof.
  intros Hclaim.
  specialize (Hclaim BreakList {| Body := "" |} (stub_exit stub0) (stub_exit stub0)
                gone eq_refl).
  assert (w (serve (OnQuery BreakList) {| Body := "" |} (stub_exit stub0))
          = {| status := Some 500; body := "gdb has exited" |}) as Hcode
    by (vm_compute; reflexivity).
  rewrite Hcode in Hclaim. discriminate Hclaim.
Qed.

Lemma backend_error_is_400_or_500_for_the_breakpoint_list_witness :
  ask BreakList (stub_exit stub0) = (Err gone, stub_exit stub0)
  ∧ w (serve (OnQuery BreakList) {| Body := "" |} (stub_exit stub0))
    = {| status := Some 500; body := "gdb has exited" |}
  ∧ w (serve (OnQuery StackInfoFrame) {| Body := "" |} (stub_exit stub0))
    = {| status := Some 400; body := "gdb has exited" |}
  ∧ w (serve (OnCommand BreakInsert) {| Body := "{}" |} (stub_exit stub0))
    = {| status := Some 400; body := "gdb has exited" |}.
Proof.
  pose proof (backend_error_is_400_or_500_for_the_breakpoint_list
                (RT := stub_runtime) {| Body := "" |}
                (stub_exit stub0) (stub_exit stub0) gone) as [Hquery _].
  pose proof (backend_error_is_400_or_500_for_the_breakpoint_list
                (RT := stub_runtime) {| Body := "{}" |}
                (stub_exit stub0) (stub_exit stub0) gone) as [_ Hcommand].
  split; [reflexivity|]. split_and!.
  - apply (Hquery BreakList). reflexivity.
  - apply (Hquery StackInfoFrame). reflexivity.
  - apply (Hcommand BreakInsert ∅); vm_compute; reflexivity.
Defined.

Lemma decode_failure_is_400_without_call_witness :
  decode_error (OnCommand ThreadSelect) {| Body := "{" |} = Some unexpected_EOF
  ∧ serve (OnCommand ThreadSelect) {| Body := "{" |} stub0
    = {| mygdb := stub0; calls := [];
         w := {| status := Some 400; body := "unexpected EOF" |} |}.
Proof.
  split; [reflexivity|].
  apply (decode_failure_is_400_without_call (RT := stub_runtime)
           (OnCommand ThreadSelect) {| Body := "{" |} stub0 unexpected_EOF);
    [exact I|reflexivity].
Defined.

Lemma encoding_decides_500_or_200_witness :
  w (serve (OnQuery ThreadListIds) {| Body := "" |} stub0)
  = {| status := Some 200; body := "[1,2]" |}
  ∧ w (serve (OnCommand ThreadInfo) {| Body := member "ThreadId" "NaN" |} stub0)
    = {| status := Some 500; body := "json: unsupported value: NaN" |}.
Proof.
  split.
  - apply (proj1 (encoding_decides_500_or_200 (RT := stub_runtime)
                    {| Body := "" |} stub0)
             ThreadListIds ["1"; "2"] stub0).
    reflexivity.
  - apply (proj2 (encoding_decides_500_or_200 (RT := stub_runtime)
                    {| Body := member "ThreadId" "NaN" |} stub0)
             ThreadInfo {[ "ThreadId" := "NaN" ]} "NaN" stub0);
      [exact I|vm_compute; reflexivity|reflexivity].
Defined.

(** C8, as stated, fails: a body that names no member at all is not
    rejected; on [/handle/file/get] the file is opened with the empty path
    (and [/handle/thread/select] calls [ThreadSelect] with the zero
    parameter, see the lemma after this one). *)
Lemma absent_member_is_not_rejected :
  ¬ (∀ ep body g,
       decodes ep →
       (decode_object body ∅).1 = ∅ →
       calls (serve ep {| Body := body |} g) = []).
Proof.
  intros Hclaim.
  assert ((decode_object "{}" ∅).1 = ∅) as Habsent
    by (vm_compute; reflexivity).
  assert (calls (serve FileGet {| Body := "{}" |} stub0) = [OsOpen ""]) as Hcalls
    by (vm_compute; reflexivity).
  specialize (Hclaim FileGet "{}" stub0 I Habsent).
  rewrite Hcalls in Hclaim. discriminate Hclaim.
Qed.

Lemma operation_called_with_what_decoding_left_witness :
  decode_object "{}" ∅ = (∅, None)
  ∧ calls (serve (OnCommand ThreadSelect) {| Body := "{}" |} stub0)
    = [Invoke ThreadSelect (∅ : gmap string string)]
  ∧ calls (serve FileGet {| Body := "{}" |} stub0) = [OsOpen ""]
  ∧ calls (serve FileGet {| Body := "{" |} stub0) = [].
Proof.
  pose proof (operation_called_with_what_decoding_left (RT := stub_runtime)
                {| Body := "{}" |} stub0)
    as (_ & _ & Hzero & Hfile).
  pose proof (operation_called_with_what_decoding_left (RT := stub_runtime)
                {| Body := "{" |} stub0)
    as (_ & Hrejected & _).
  split; [reflexivity|]. split_and!.
  - apply (Hzero ThreadSelect). reflexivity.
  - apply (Hfile ∅); reflexivity.
  - apply (Hrejected ∅ (Some unexpected_EOF)). reflexivity.
Defined.

(** ** Multiplexer *)

Lemma encoding_failure_drops_the_event_witness :
  json_Marshal {| Type_ := "console"; Data := "NaN" |} = Err unsupported
  ∧ ws (after [Iterate console_fires] mux_nan) = []
  ∧ exits (after [Iterate console_fires] mux_nan) = 0%nat
  ∧ chan (after [Iterate console_fires] mux_nan) Console = ["next"]
  ∧ ws (after [Iterate console_fires; Iterate console_fires] mux_nan)
    = [{| at_time := 108; envelope := {| Type_ := "console"; Data := "next" |};
          bytes := "{Type:console,Data:next}"; failed := None |}].
Proof.
  split; [reflexivity|].
  pose proof (encoding_failure_drops_the_event (W := string_wire)
                console_fires mux_nan Console "NaN" ["next"] unsupported
                [Iterate console_fires] eq_refl eq_refl eq_refl
                ltac:(done) ltac:(done) ltac:(done)) as [Hdrop Hnext].
  cbv zeta in Hdrop, Hnext. unfold after.
  rewrite Hnext. rewrite run_cons. cbn [step]. rewrite Hdrop.
  split_and!; reflexivity.
Defined.

Lemma loop_goes_on_after_failed_write_witness :
  exits mux_failed = 1%nat
  ∧ feasible timer_fires mux_failed
  ∧ (∃ m', iterate timer_fires mux_failed = Some (tt, m') ∧ length (ws m') = 2%nat)
  ∧ exits (after (console_then_heartbeat (Some broken_pipe) (Some broken_pipe)) mux0)
    = 2%nat.
Proof.
  pose proof (loop_goes_on_after_failed_write (W := string_wire)) as [Hstep Hrun].
  assert (feasible timer_fires mux_failed) as Hfeasible by (vm_compute; exact I).
  split; [vm_compute; reflexivity|]. split; [exact Hfeasible|]. split.
  - destruct (Hstep timer_fires mux_failed Hfeasible) as (m' & Hit & Hws).
    exists m'. split; [exact Hit|].
    rewrite (Hws heartbeat "{Type:heartbeat,Data:}");
      [vm_compute; reflexivity..].
  - assert (run (console_then_heartbeat (Some broken_pipe) (Some broken_pipe))
              (start (λ _, []) 100 stub0)
            = Some (tt, after (console_then_heartbeat (Some broken_pipe)
                                 (Some broken_pipe)) mux0)) as Hran
      by (vm_compute; reflexivity).
    destruct (Hrun _ _ _ _ _ Hran) as [-> _].
    vm_compute. reflexivity.
Defined.

Lemma heartbeat_after_silence_witness :
  106 + interval ≤ 30000000109
  ∧ length (ws (after [Iterate timer_fires] mux0)) = 1%nat
  ∧ exits (after [Iterate timer_fires] mux0) = 1%nat.
Proof.
  pose proof (heartbeat_after_silence (W := string_wire))
    as (_ & Hspaced & Hfires & Hfails).
  split.
  - assert (run (console_then_heartbeat None None) (start (λ _, []) 100 stub0)
            = Some (tt, after (console_then_heartbeat None None) mux0)) as Hran
      by (vm_compute; reflexivity).
    assert (ws (after (console_then_heartbeat None None) mux0) !! 0%nat
            = Some {| at_time := 106;
                      envelope := {| Type_ := "console";
                                     Data := "Breakpoint 1, main ()" |};
                      bytes := "{Type:console,Data:Breakpoint 1, main ()}";
                      failed := None |}) as Hdata
      by (vm_compute; reflexivity).
    assert (ws (after (console_then_heartbeat None None) mux0) !! 1%nat
            = Some {| at_time := 30000000109; envelope := heartbeat;
                      bytes := "{Type:heartbeat,Data:}"; failed := None |}) as Hbeat
      by (vm_compute; reflexivity).
    apply (Hspaced _ _ _ _ _ Hran 0%nat 1%nat _ _ ltac:(lia) Hdata Hbeat).
    reflexivity.
  - assert (interval ≤ wait timer_fires) as Hwait by (vm_compute; discriminate).
    assert (0 ≤ enc timer_fires) as Henc by (vm_compute; discriminate).
    assert (0 ≤ fin timer_fires) as Hfin by (vm_compute; discriminate).
    assert (json_Marshal heartbeat = Ok "{Type:heartbeat,Data:}") as Hb
      by (vm_compute; reflexivity).
    destruct (Hfires timer_fires mux0 _ eq_refl Hwait Henc Hfin Hb)
      as (m' & Hit & Hws).
    assert (is_Some (failed {| at_time := now mux0 + wait timer_fires + enc timer_fires;
                               envelope := heartbeat;
                               bytes := "{Type:heartbeat,Data:}";
                               failed := wr timer_fires |})) as Hfailed
      by (by eexists).
    destruct (Hfails timer_fires mux0 m' _ Hit Hws Hfailed) as (_ & _ & Hexits).
    unfold after. rewrite run_cons. cbn [step]. rewrite Hit. cbn [run mret L_ret].
    rewrite Hws, Hexits. split; reflexivity.
Defined.

(** * More of the code *)

(** ** Resolver: what [Open] returns, read backwards, and layered lists *)

Section ResolverMore.
Context {File FileInfo : Type} `{HF : HttpFile File FileInfo}.
Implicit Types (p q : FileSystem File) (l : list (FileSystem File)).

(** With [lastIdx] the index of the last provider, the loop does not
    depend on where the count starts. *)
Lemma Open_from_unfold l name lastIdx i :
  lastIdx = i + Z.of_nat (length l) - 1 →
  Open_from lastIdx i l name
  = match l with
    | [] => Err (errors_New "Algorithm failure")
    | p :: rest =>
        match Open p name with
        | Ok f => Ok {| embedded := f |}
        | Err e =>
            match rest with
            | [] => Err e
            | _ :: _ => Open_from lastIdx (i + 1) rest name
            end
        end
    end.
Proof.
  intros Hlast. destruct l as [|p [|q rest]]; [done|..]; simpl in *.
  - destruct (Open p name); [done|]. by rewrite bool_decide_eq_true_2 by lia.
  - destruct (Open p name); [done|]. by rewrite bool_decide_eq_false_2 by lia.
Qed.

Lemma Open_from_shift l name lastIdx i lastIdx' i' :
  lastIdx = i + Z.of_nat (length l) - 1 →
  lastIdx' = i' + Z.of_nat (length l) - 1 →
  Open_from lastIdx i l name = Open_from lastIdx' i' l name.
Proof.
  revert i i'. induction l as [|p l IH]; intros i i' Hi Hi'; [done|].
  rewrite (Open_from_unfold _ _ _ _ Hi), (Open_from_unfold _ _ _ _ Hi').
  destruct (Open p name); [done|]. destruct l as [|q l]; [done|].
  apply IH; simpl in *; lia.
Qed.

Lemma chained_Open_cons p l name :
  chained_Open {| fs := p :: l |} name
  = match Open p name with
    | Ok f => Ok {| embedded := f |}
    | Err e => match l with [] => Err e | _ :: _ => chained_Open {| fs := l |} name end
    end.
Proof.
  unfold chained_Open. cbn [fs]. rewrite Open_from_unfold by (simpl; lia).
  destruct (Open p name); [done|]. destruct l as [|q l]; [done|].
  apply Open_from_shift; simpl; lia.
Qed.

(** X1. An asset is found exactly when some provider has it. *)
Theorem chained_Open_found_iff (cfs : chainedFileSystem File) name :
  is_Ok (chained_Open cfs name) ↔ ∃ p, p ∈ fs cfs ∧ is_Ok (Open p name).
Proof.
  destruct cfs as [l]. cbn [fs]. induction l as [|p l IH].
  - split; [done|]. by intros (p & ?%elem_of_nil & _).
  - rewrite chained_Open_cons. destruct (Open p name) as [f|e] eqn:Hp.
    + split; [|done]. intros _. exists p. rewrite Hp. split; [left|done].
    + destruct l as [|q l].
      * split; [done|]. intros (p' & ->%list_elem_of_singleton & Hok).
        by rewrite Hp in Hok.
      * rewrite IH. split.
        -- intros (p' & Hin & Hok). exists p'. split; [by right|done].
        -- intros (p' & Hin & Hok). exists p'. split; [|done].
           apply elem_of_cons in Hin as [->|Hin]; [by rewrite Hp in Hok|done].
Qed.

(** X2. An error from [Open] means that every provider failed, and it is
    the error of the last provider, or the fall-through error when there
    is no provider at all. *)
Theorem chained_Open_Err_inv (cfs : chainedFileSystem File) name e :
  chained_Open cfs name = Err e →
  (∀ p, p ∈ fs cfs → is_Err (Open p name))
  ∧ match list.last (fs cfs) with
    | Some p => Open p name = Err e
    | None => e = errors_New "Algorithm failure"
    end.
Proof.
  destruct cfs as [l]. cbn [fs]. induction l as [|p l IH].
  - intros [= <-]. split; [by intros p ?%elem_of_nil|done].
  - rewrite chained_Open_cons. destruct (Open p name) as [f|e'] eqn:Hp; [done|].
    destruct l as [|q l].
    + intros [= <-]. split; [|done].
      intros p' ->%list_elem_of_singleton. by rewrite Hp.
    + intros [Hall Hlast]%IH. split; [|done].
      intros p' [->|Hin]%elem_of_cons; [by rewrite Hp|by apply Hall].
Qed.

Lemma Open_list_Ok_first l name h :
  chained_Open {| fs := l |} name = Ok h →
  ∃ k p,
    l !! k = Some p ∧ Open p name = Ok (embedded h)
    ∧ ∀ j q, (j < k)%nat → l !! j = Some q → is_Err (Open q name).
Proof.
  induction l as [|p l IH]; [done|].
  rewrite chained_Open_cons. destruct (Open p name) as [f|e] eqn:Hp.
  - intros [= <-]. exists 0%nat, p. split_and!; [done|done|]. intros; lia.
  - destruct l as [|q l]; [done|].
    intros (k & p' & Hk & Hp' & Hbefore)%IH. exists (S k), p'.
    split_and!; [done|done|].
    intros [|j] q' Hj Hq'; [|apply (Hbefore j q'); [lia|done]].
    injection Hq' as <-. by rewrite Hp.
Qed.

(** X3. A handle from [Open] wraps the file of the first provider that
    opens the name: the providers before it failed. *)
Theorem chained_Open_Ok_first (cfs : chainedFileSystem File) name h :
  chained_Open cfs name = Ok h →
  ∃ k p,
    fs cfs !! k = Some p ∧ Open p name = Ok (embedded h)
    ∧ ∀ j q, (j < k)%nat → fs cfs !! j = Some q → is_Err (Open q name).
Proof.
  destruct cfs as [l]. cbn [fs]. intros Hopen.
  destruct (Open_list_Ok_first l name h Hopen) as (k & p & Hfound).
  by exists k, p.
Qed.

(** X4. Providers put in front shadow those behind: when one of the first
    list opens the name, the result is that of the first list alone. *)
Theorem chained_Open_app_shadow l1 l2 name :
  (∃ p, p ∈ l1 ∧ is_Ok (Open p name)) →
  chained_Open {| fs := l1 ++ l2 |} name = chained_Open {| fs := l1 |} name.
Proof.
  induction l1 as [|p l1 IH]; [by intros (p & ?%elem_of_nil & _)|].
  intros (p' & Hin & Hok). cbn [app]. rewrite !chained_Open_cons.
  destruct (Open p name) as [f|e] eqn:Hp; [done|].
  apply elem_of_cons in Hin as [->|Hin]; [by rewrite Hp in Hok|].
  destruct l1 as [|q l1]; [by apply elem_of_nil in Hin|].
  cbn [app]. apply IH. eauto.
Qed.

(** X5. Providers that all fail in front of others are as if absent: the
    result, value or error, is that of the list behind. *)
Theorem chained_Open_app_fall_through l1 l2 name :
  (∀ p, p ∈ l1 → is_Err (Open p name)) →
  l2 ≠ [] →
  chained_Open {| fs := l1 ++ l2 |} name = chained_Open {| fs := l2 |} name.
Proof.
  intros Hall Hl2. induction l1 as [|p l1 IH]; [done|].
  cbn [app]. rewrite chained_Open_cons.
  pose proof (Hall p ltac:(left)) as Hp.
  destruct (Open p name) as [f|e]; [done|].
  destruct (l1 ++ l2) as [|q l] eqn:Happ.
  - apply app_eq_nil in Happ as [_ ->]. done.
  - apply IH. intros p' Hin. apply Hall. by right.
Qed.

End ResolverMore.

(** ** The providers that [main] builds *)

Section BundlesFacts.
Context {File FileInfo : Type} `{HF : HttpFile File FileInfo}.
Context (Dir : string → FileSystem File).

Lemma fill_bundles_spec gopath idx bundleNames (slots : list (option (FileSystem File))) :
  length slots = (idx + length bundleNames)%nat →
  fill_bundles Dir gopath idx bundleNames slots
  = take idx slots ++ ((λ n, Some (bundle_web Dir gopath n)) <$> bundleNames).
Proof.
  revert idx slots. induction bundleNames as [|n names IH]; intros idx slots Hlen.
  - cbn. rewrite app_nil_r, take_ge; [done|]. cbn in Hlen. lia.
  - cbn [fill_bundles]. rewrite IH by (rewrite length_insert; cbn in Hlen; lia).
    cbn [fmap list_fmap]. rewrite (take_S_r _ _ (Some (bundle_web Dir gopath n))).
    + rewrite <-(assoc_L (++)). f_equal. rewrite take_insert_ge; [done|lia].
    + apply list_lookup_insert_eq. cbn in Hlen. lia.
Qed.

Lemma bundleFileSystems_eq gopath bundleNames :
  bundleFileSystems Dir gopath bundleNames
  = (λ n, Some (bundle_web Dir gopath n)) <$> bundleNames.
Proof.
  unfold bundleFileSystems.
  rewrite fill_bundles_spec by (rewrite length_replicate; lia). done.
Qed.

Lemma main_cfs_fs gopath bundleNames :
  fs (main_cfs Dir gopath bundleNames) = bundle_web Dir gopath <$> bundleNames.
Proof.
  unfold main_cfs. cbn [fs]. rewrite bundleFileSystems_eq.
  induction bundleNames as [|n names IH]; [done|]. cbn. by rewrite IH.
Qed.

(** X6. The loop of [main] fills every slot of the slice, in the order of
    the names: no slot is left nil, slot [k] holds the [web] directory of
    the [k]-th name, and these are the providers of the resolver. *)
Theorem bundleFileSystems_filled gopath bundleNames :
  length (bundleFileSystems Dir gopath bundleNames) = length bundleNames
  ∧ (∀ k, bundleFileSystems Dir gopath bundleNames !! k
          = (λ n, Some (bundle_web Dir gopath n)) <$> bundleNames !! k)
  ∧ fs (main_cfs Dir gopath bundleNames) = bundle_web Dir gopath <$> bundleNames.
Proof.
  split_and!.
  - by rewrite bundleFileSystems_eq, length_fmap.
  - intros k. by rewrite bundleFileSystems_eq, list_lookup_fmap.
  - apply main_cfs_fs.
Qed.

(** X7. The asset that the file server of [main] finds is that of the first
    bundle, in the order of the directory listing, whose [web] directory has
    it; without bundles every name gets the fall-through error. *)
Theorem main_cfs_first_bundle gopath bundleNames name :
  (∀ h,
     chained_Open (main_cfs Dir gopath bundleNames) name = Ok h →
     ∃ k bundleName,
       bundleNames !! k = Some bundleName
       ∧ Open (bundle_web Dir gopath bundleName) name = Ok (embedded h)
       ∧ ∀ j earlier, (j < k)%nat → bundleNames !! j = Some earlier →
           is_Err (Open (bundle_web Dir gopath earlier) name))
  ∧ (bundleNames = [] →
     chained_Open (main_cfs Dir gopath bundleNames) name
     = Err (errors_New "Algorithm failure")).
Proof.
  split.
  - intros h Hopen.
    destruct (main_cfs Dir gopath bundleNames) as [l] eqn:Hcfs.
    assert (l = bundle_web Dir gopath <$> bundleNames) as ->
      by (by rewrite <-main_cfs_fs, Hcfs).
    apply Open_list_Ok_first in Hopen as (k & p & Hk & Hp & Hbefore).
    apply list_lookup_fmap_Some in Hk as (n & -> & Hn).
    exists k, n. split_and!; [done|done|].
    intros j earlier Hj Hearlier. apply (Hbefore j); [done|].
    by rewrite list_lookup_fmap, Hearlier.
  - intros ->. reflexivity.
Qed.

End BundlesFacts.

(** ** Dispatcher: calls, statuses, the session, the file endpoint *)

Lemma append_empty_r (s : string) : s +:+ "" = s.
Proof.
  induction s as [|a s IH]; [done|].
  change (String a (s +:+ "") = String a s). by rewrite IH.
Qed.

Section DispatcherMore.
Context {G : GdbLib} {RT : Runtime}.
Implicit Types (r : Request) (g : GDB) (e : error) (ep : endpoint).

(** The whole state that a query leaves. *)
Lemma serve_query q r g :
  serve (OnQuery q) r g
  = let '(res, g') := ask q g in
    {| mygdb := g'; calls := [Ask q];
       w := match res with
            | Err e => {| status := Some (if q is BreakList then 500 else 400);
                          body := Error e |}
            | Ok v =>
                match Marshal_q q v with
                | Err e => {| status := Some 500; body := Error e |}
                | Ok resultBytes => {| status := Some 200; body := resultBytes |}
                end
            end |}.
Proof.
  destruct q; handler_unfold; destruct (ask _ g) as [[v|e] g']; cbn; try done;
    by destruct (Marshal_q _ v).
Qed.

(** The whole state that a command leaves. *)
Lemma serve_command c r g :
  serve (OnCommand c) r g
  = let '(p, err) := Decode c (Body r) (zero c) in
    match err with
    | Some e => {| mygdb := g; calls := [];
                   w := {| status := Some 400; body := Error e |} |}
    | None =>
        let '(res, g') := invoke c p g in
        {| mygdb := g'; calls := [Invoke c p];
           w := match res with
                | Err e => {| status := Some 400; body := Error e |}
                | Ok v =>
                    if returns_data (OnCommand c) then
                      match Marshal c v with
                      | Err e => {| status := Some 500; body := Error e |}
                      | Ok resultBytes => {| status := Some 200; body := resultBytes |}
                      end
                    else {| status := Some 200; body := "" |}
                end |}
    end.
Proof.
  destruct c; handler_unfold; destruct (Decode _ (Body r) _) as [p [e|]]; cbn;
    try done; destruct (invoke _ p g) as [[v|e] g']; cbn; try done;
    by destruct (Marshal _ v).
Qed.

(** The whole state that the file endpoint leaves. *)
Lemma serve_file_get r g :
  serve FileGet r g
  = let '(parms, err) := Decode_map (Body r) ∅ in
    match err with
    | Some e => {| mygdb := g; calls := [];
                   w := {| status := Some 400; body := Error e |} |}
    | None =>
        {| mygdb := g; calls := [OsOpen (index parms "File")];
           w := match os_Open (index parms "File") with
                | Err e => {| status := Some 500; body := Error e |}
                | Ok file =>
                    {| status := Some 200;
                       body := (io_Copy file).1
                               +:+ match (io_Copy file).2 with
                                   | Some e => Error e
                                   | None => ""
                                   end |}
                end |}
    end.
Proof.
  handler_unfold. destruct (Decode_map (Body r) ∅) as [parms [e|]]; cbn; [done|].
  destruct (os_Open _) as [file|e]; cbn; [|done].
  destruct (io_Copy file) as [b [e|]]; cbn; case_bool_decide; subst;
    rewrite ?append_empty_r; reflexivity.
Qed.

(** X8. A request makes at most one call, and only the call of its own
    endpoint: no handler reaches another operation, calls its operation
    twice, or ends the session (the exit endpoint apart). *)
Theorem at_most_one_own_call ep r g :
  calls (serve ep r g) = []
  ∨ ∃ x, calls (serve ep r g) = [x] ∧ own_call ep x.
Proof.
  destruct ep as [q|c| |].
  - right. exists (Ask q). rewrite serve_query. by destruct (ask q g).
  - rewrite serve_command. destruct (Decode c (Body r) (zero c)) as [p [e|]].
    + by left.
    + right. exists (Invoke c p). by destruct (invoke c p g).
  - rewrite serve_file_get. destruct (Decode_map (Body r) ∅) as [p [e|]].
    + by left.
    + right. by eexists (OsOpen _).
  - right. by exists Exit.
Qed.

(** X9. Every endpoint but the exit endpoint writes a status, and it is
    200, 400 or 500; the exit endpoint writes neither status nor body,
    calls [GdbExit] once and reads nothing of the request. *)
Theorem status_is_200_400_or_500 ep r g :
  match ep with
  | GdbExitEndpoint =>
      serve ep r g
      = {| mygdb := GdbExit g; calls := [Exit];
           w := {| status := None; body := "" |} |}
  | _ =>
      status (w (serve ep r g)) = Some 200
      ∨ status (w (serve ep r g)) = Some 400
      ∨ status (w (serve ep r g)) = Some 500
  end.
Proof.
  destruct ep as [q|c| |]; [| | |done].
  - rewrite serve_query. repeat case_match; cbn; auto.
  - rewrite serve_command. repeat case_match; cbn; auto.
  - rewrite serve_file_get. repeat case_match; cbn; auto.
Qed.

(** X10. A command that returns no data ([exec/*], [breakpoint/enable],
    [breakpoint/disable]) and succeeds answers 200 with an empty body,
    after exactly one call with the decoded parameter. *)
Theorem pure_command_success c r g p v g' :
  returns_data (OnCommand c) = false →
  Decode c (Body r) (zero c) = (p, None) →
  invoke c p g = (Ok v, g') →
  serve (OnCommand c) r g
  = {| mygdb := g'; calls := [Invoke c p];
       w := {| status := Some 200; body := "" |} |}.
Proof. intros Hpure Hd Hi. by rewrite serve_command, Hd, Hi, Hpure. Qed.

(** X11. The session after a request is the one the operation left,
    whatever the response: an operation that ran and whose result then
    fails to encode (500), or that returned an error (400), has still done
    to the session what it did. *)
Theorem session_is_what_operation_left r g :
  (∀ q res g', ask q g = (res, g') → mygdb (serve (OnQuery q) r g) = g')
  ∧ (∀ c p res g',
       Decode c (Body r) (zero c) = (p, None) →
       invoke c p g = (res, g') →
       mygdb (serve (OnCommand c) r g) = g').
Proof.
  split.
  - intros q res g' Hq. by rewrite serve_query, Hq.
  - intros c p res g' Hd Hi. by rewrite serve_command, Hd, Hi.
Qed.

(** X12. Apart from [/handle/breakpoint/list], an operation that returns
    an error is answered with 400 and the text of the error: the two other
    queries, and every command once its body is decoded. *)
Theorem backend_error_is_400_elsewhere r g e g' :
  (∀ q, q ≠ BreakList →
     ask q g = (Err e, g') →
     w (serve (OnQuery q) r g) = {| status := Some 400; body := Error e |})
  ∧ (∀ c p,
       Decode c (Body r) (zero c) = (p, None) →
       invoke c p g = (Err e, g') →
       w (serve (OnCommand c) r g) = {| status := Some 400; body := Error e |}).
Proof.
  split.
  - intros q Hq Ha. rewrite serve_query, Ha. by destruct q.
  - intros c p Hd Hi. by rewrite serve_command, Hd, Hi.
Qed.

(** X13. [/handle/file/get], once the file is open, answers 200 with the
    bytes that [io.Copy] wrote; when [io.Copy] returns an error the status
    stays 200 (the header is out, the later [WriteHeader(500)] changes
    nothing) and the text of the error follows the bytes in the body. *)
Theorem file_get_streams r g parms file copied err :
  Decode_map (Body r) ∅ = (parms, None) →
  os_Open (index parms "File") = Ok file →
  io_Copy file = (copied, err) →
  serve FileGet r g
  = {| mygdb := g; calls := [OsOpen (index parms "File")];
       w := {| status := Some 200;
               body := copied +:+ match err with
                                  | Some e => Error e
                                  | None => ""
                                  end |} |}.
Proof. intros Hd Ho Hc. by rewrite serve_file_get, Hd, Ho, Hc. Qed.

(** X14. [/handle/file/get] never touches the session, and a file that
    cannot be opened is answered with 500 and the text of the error of
    [os.Open], after that one call. *)
Theorem file_get_open_failure r g :
  mygdb (serve FileGet r g) = g
  ∧ ∀ parms e,
      Decode_map (Body r) ∅ = (parms, None) →
      os_Open (index parms "File") = Err e →
      serve FileGet r g
      = {| mygdb := g; calls := [OsOpen (index parms "File")];
           w := {| status := Some 500; body := Error e |} |}.
Proof.
  split.
  - rewrite serve_file_get. by destruct (Decode_map (Body r) ∅) as [p [e|]].
  - intros parms e Hd Ho. by rewrite serve_file_get, Hd, Ho.
Qed.

(** X15. No two endpoints are registered under the same pattern. *)
Theorem patterns_differ ep ep' : ep ≠ ep' → pattern ep ≠ pattern ep'.
Proof.
  intros Hne Heq. apply Hne. clear Hne.
  destruct ep as [[]|[]| |], ep' as [[]|[]| |]; cbn in Heq;
    first [reflexivity | discriminate Heq].
Qed.

End DispatcherMore.

(** ** Multiplexer: the session, the writes and the channels over a run *)

Section MultiplexerMore.
Context `{G : GdbLib} `{W : Wire}.
Implicit Types (m : mux) (it : iteration) (acts : list action) (c : channel).

Lemma firings_cons k a acts :
  firings k (a :: acts) = ((if fires k a then 1 else 0) + firings k acts)%nat.
Proof. unfold firings. rewrite filter_cons. by destruct (fires k a). Qed.

Lemma iterations_cons a acts :
  iterations (a :: acts)
  = ((if is_iteration a then 1 else 0) + iterations acts)%nat.
Proof. unfold iterations. rewrite filter_cons. by destruct (is_iteration a). Qed.

Lemma failures_singleton (x : write) :
  failures [x] = if failed x is Some _ then [x] else [].
Proof.
  unfold failures. rewrite filter_cons, filter_nil.
  destruct (failed x); [by rewrite decide_True by eauto|].
  by rewrite decide_False by (by intros [??]).
Qed.

(** What one step adds to the writes and does to the session. *)
Lemma step_session a m m1 :
  step a m = Some (tt, m1) →
  ∃ new,
    ws m1 = ws m ++ new
    ∧ session m1 = Nat.iter (length (failures new)) GdbExit (session m)
    ∧ (length new ≤ if is_iteration a then 1 else 0)%nat
    ∧ ((∀ e, encodes e) → length new = if is_iteration a then 1%nat else 0%nat).
Proof.
  destruct a as [c v|it]; cbn.
  - intros [= <-]. exists []. cbn. by rewrite app_nil_r.
  - intros (e & q & _ & -> & _)%iterate_outcome. unfold outcome, encodes.
    destruct (json_Marshal e) as [b|] eqn:Hb; cbn.
    + eexists [_]. rewrite failures_singleton. cbn.
      split_and!; [done| |done|done]. by destruct (wr it).
    + exists []. cbn. rewrite app_nil_r. split_and!; [done|done|lia|].
      intros Henc. specialize (Henc e). by rewrite Hb in Henc.
Qed.

Lemma run_session acts m m' :
  run acts m = Some (tt, m') →
  ∃ new,
    ws m' = ws m ++ new
    ∧ session m' = Nat.iter (length (failures new)) GdbExit (session m)
    ∧ (length new ≤ iterations acts)%nat
    ∧ ((∀ e, encodes e) → length new = iterations acts).
Proof.
  revert m. induction acts as [|a acts IH]; intros m.
  - intros [= <-]. exists []. cbn. by rewrite app_nil_r.
  - rewrite run_cons. destruct (step a m) as [[[] m1]|] eqn:Ha; [|done].
    intros (rest & Hws & Hs & Hle & Heq)%IH.
    destruct (step_session _ _ _ Ha) as (one & Hws1 & Hs1 & Hle1 & Heq1).
    exists (one ++ rest). rewrite iterations_cons, length_app.
    split_and!.
    + by rewrite Hws, Hws1, (assoc_L (++)).
    + rewrite Hs, Hs1. unfold failures. rewrite list.filter_app, length_app.
      by rewrite Nat.add_comm, Nat.iter_add.
    + lia.
    + intros Henc. rewrite (Heq Henc), (Heq1 Henc). done.
Qed.

(** X16. The loop touches the session through [GdbExit] alone, once for
    every write that failed: after a run the session is the one the loop
    was started with, with [GdbExit] applied that many times, and it is
    untouched while no write fails. *)
Theorem session_after_run acts queues t0 g m' :
  run acts (start queues t0 g) = Some (tt, m') →
  session m' = Nat.iter (length (failures (ws m'))) GdbExit g
  ∧ (failures (ws m') = [] → session m' = g).
Proof.
  intros (new & Hws & Hs & _)%run_session. cbn in Hws, Hs. subst new.
  split; [done|]. intros Hnone. by rewrite Hs, Hnone.
Qed.

(** X17. An iteration writes at most one envelope: after a run there are
    no more writes than iterations, and exactly as many when every
    envelope encodes. *)
Theorem one_write_per_iteration acts queues t0 g m' :
  run acts (start queues t0 g) = Some (tt, m') →
  (length (ws m') ≤ iterations acts)%nat
  ∧ ((∀ e, encodes e) → length (ws m') = iterations acts).
Proof.
  intros (new & Hws & _ & Hle & Heq)%run_session. cbn in Hws. by subst new.
Qed.

(** What one step does to channel [c]. *)
Lemma step_channel c a m m1 :
  step a m = Some (tt, m1) →
  (length (chan m c) + length (sent_on c [a])
   = (if fires (Recv c) a then 1 else 0) + length (chan m1 c))%nat.
Proof.
  destruct a as [c' v|it]; cbn.
  - intros [= <-]. cbn. case_bool_decide as Hc.
    + subst c'. rewrite fn_lookup_insert, length_app. cbn. lia.
    + rewrite fn_lookup_insert_ne by done. cbn. lia.
  - intros (e & q & _ & -> & _ & _ & _ & Hcase)%iterate_outcome.
    assert (chan (outcome it e q m) = q) as Hq by (unfold outcome; destruct (json_Marshal e); reflexivity).
    rewrite Hq. clear Hq.
    destruct (fired it) as [c'|].
    + destruct Hcase as (v & rest & Hv & -> & _).
      destruct (decide (c' = c)) as [->|Hc].
      * rewrite bool_decide_eq_true_2, fn_lookup_insert, Hv by done. cbn. lia.
      * rewrite bool_decide_eq_false_2, fn_lookup_insert_ne by congruence. lia.
    + destruct Hcase as (-> & _). rewrite bool_decide_eq_false_2 by done. lia.
Qed.

(** X18. Every iteration that fires on a channel takes exactly one value
    from it, and nothing else takes a value: what waited on the channel
    plus what was sent on it is what the iterations on it received plus
    what still waits. *)
Theorem channel_consumption c acts queues t0 g m' :
  run acts (start queues t0 g) = Some (tt, m') →
  (length (queues c) + length (sent_on c acts)
   = firings (Recv c) acts + length (chan m' c))%nat.
Proof.
  change (queues c) with (chan (start queues t0 g) c).
  generalize (start queues t0 g). revert m'.
  induction acts as [|a acts IH]; intros m' m.
  - intros [= <-]. cbn. lia.
  - rewrite run_cons. destruct (step a m) as [[[] m1]|] eqn:Ha; [|done].
    intros Hrun%IH. pose proof (step_channel c _ _ _ Ha) as Hstep.
    rewrite sent_on_cons, firings_cons, length_app. lia.
Qed.

(** What one step adds to the heartbeats written. *)
Lemma step_heartbeat a m m1 :
  step a m = Some (tt, m1) →
  ∃ n,
    written "heartbeat" (ws m1)
    = written "heartbeat" (ws m) ++ replicate n (of_string "")
    ∧ (n ≤ if fires After a then 1 else 0)%nat
    ∧ (encodes heartbeat → n = if fires After a then 1%nat else 0%nat).
Proof.
  destruct a as [c v|it]; cbn.
  - intros [= <-]. exists 0%nat. cbn. by rewrite app_nil_r.
  - intros (e & q & _ & -> & _ & _ & _ & Hcase)%iterate_outcome.
    unfold outcome, encodes. destruct (fired it) as [c|].
    + destruct Hcase as (v & rest & _ & _ & ->). exists 0%nat.
      rewrite bool_decide_eq_false_2 by done. cbn [replicate].
      rewrite app_nil_r. split_and!; [|done|done].
      destruct (json_Marshal _); cbn -[written]; [|done].
      rewrite written_snoc. cbn -[written].
      rewrite decide_False by apply kind_not_heartbeat. by rewrite app_nil_r.
    + destruct Hcase as (_ & _ & ->). rewrite bool_decide_eq_true_2 by done.
      destruct (json_Marshal heartbeat) as [b|] eqn:Hb; cbn -[written].
      * exists 1%nat. rewrite written_snoc. cbn -[written].
        by rewrite decide_True.
      * exists 0%nat. cbn [replicate]. rewrite app_nil_r.
        split_and!; [done|lia|done].
Qed.

(** X19. Heartbeats come from the timer alone and are empty: the
    envelopes tagged [heartbeat] all carry the empty string, there are no
    more of them than iterations in which the timer fired, and exactly as
    many when the heartbeat encodes. *)
Theorem heartbeats_only_from_timer acts queues t0 g m' :
  run acts (start queues t0 g) = Some (tt, m') →
  ∃ n,
    written "heartbeat" (ws m') = replicate n (of_string "")
    ∧ (n ≤ firings After acts)%nat
    ∧ (encodes heartbeat → n = firings After acts).
Proof.
  assert (∀ m, run acts m = Some (tt, m') →
    ∃ n, written "heartbeat" (ws m')
         = written "heartbeat" (ws m) ++ replicate n (of_string "")
       ∧ (n ≤ firings After acts)%nat
       ∧ (encodes heartbeat → n = firings After acts)) as Hgen.
  { revert m'. induction acts as [|a acts IH]; intros m' m.
    - intros [= <-]. exists 0%nat. cbn. by rewrite app_nil_r.
    - rewrite run_cons. destruct (step a m) as [[[] m1]|] eqn:Ha; [|done].
      intros (n & Hw & Hle & Heq)%IH.
      destruct (step_heartbeat _ _ _ Ha) as (n1 & Hw1 & Hle1 & Heq1).
      exists (n1 + n)%nat. rewrite firings_cons, replicate_add, Hw, Hw1.
      rewrite (assoc_L (++)). split_and!; [done|lia|].
      intros Henc. by rewrite (Heq Henc), (Heq1 Henc). }
  intros (n & Hw & Hn)%Hgen. exists n. by rewrite Hw.
Qed.

End MultiplexerMore.

(** ** [main] *)

Section MainFacts.
Context `{G : GdbLib}.

(** X20. [main] builds the session exactly when it is given two arguments,
    and then from these two in order; with any other number, fewer or
    more, it prints the usage text and returns.  The goroutines are started
    exactly when the session was built.  [main] panics exactly when
    [NewGDB] or [Wait] returns an error, with that error. *)
Theorem main_outcome (Args : list string)
    (NewGDB : string → string → result GDB) (Wait : GDB → option error) :
  (∀ x y, NewGDB_called x y ∈ (main Args NewGDB Wait).1
          ↔ length Args = 3%nat ∧ x = arg Args 1 ∧ y = arg Args 2)
  ∧ (Printed usage ∈ (main Args NewGDB Wait).1 ↔ length Args ≠ 3%nat)
  ∧ (Go_server ∈ (main Args NewGDB Wait).1
     ↔ length Args = 3%nat ∧ is_Ok (NewGDB (arg Args 1) (arg Args 2)))
  ∧ (∀ e, (main Args NewGDB Wait).2 = Panics e
          ↔ length Args = 3%nat
            ∧ (NewGDB (arg Args 1) (arg Args 2) = Err e
               ∨ ∃ mygdb, NewGDB (arg Args 1) (arg Args 2) = Ok mygdb
                          ∧ Wait mygdb = Some e)).
Proof.
  assert (Printed usage ≠ Printed ("Server finished" +:+ newline)) as Hne
    by (by vm_compute).
  unfold main. case_bool_decide as Hlen.
  - cbn. split_and!; intros; rewrite ?list_elem_of_singleton;
      (split; [intros Hin|intros Hout]); try done;
      try discriminate Hin; by destruct Hout.
  - destruct (NewGDB (arg Args 1) (arg Args 2)) as [mygdb|err] eqn:Hnew;
      [destruct (Wait mygdb) as [err|] eqn:Hwait|]; cbn;
      split_and!; intros; rewrite ?elem_of_cons, ?elem_of_nil;
      (split; [intros Hin; destruct_or?; simplify_eq; try done
              |intros Hout; destruct_and?; destruct_or?; simplify_eq; try done]).
    all: try (by left).
    all: try (by right; left).
    all: try (split; [done|]; by (left + (right; eexists))).
    all: repeat match goal with
                | H : ∃ _, _ |- _ => destruct H as (? & ? & ?)
                end; simplify_eq; congruence.
Qed.

End MainFacts.

(** * More of the code, on concrete requests *)

(** ** Resolver and bundles *)

Lemma chained_Open_Err_inv_witness :
  chained_Open two_bundles "/nope"
  = Err (errors_New "open /nope: no such file or directory")
  ∧ Open bundle_b "/nope" = Err (errors_New "open /nope: no such file or directory")
  ∧ is_Err (Open bundle_a "/nope").
Proof.
  assert (chained_Open two_bundles "/nope"
          = Err (errors_New "open /nope: no such file or directory")) as Hopen
    by (vm_compute; reflexivity).
  destruct (chained_Open_Err_inv two_bundles "/nope" _ Hopen) as [Hall Hlast].
  split; [exact Hopen|]. split; [exact Hlast|].
  apply Hall. left.
Defined.

Lemma chained_Open_Ok_first_witness :
  chained_Open two_bundles "/index.html"
  = Ok {| embedded := {| content := "<html>"; entries := [] |} |}
  ∧ ∃ k p, fs two_bundles !! k = Some p
           ∧ Open p "/index.html" = Ok {| content := "<html>"; entries := [] |}.
Proof.
  assert (chained_Open two_bundles "/index.html"
          = Ok {| embedded := {| content := "<html>"; entries := [] |} |}) as Hopen
    by (vm_compute; reflexivity).
  split; [exact Hopen|].
  destruct (chained_Open_Ok_first two_bundles "/index.html" _ Hopen)
    as (k & p & Hk & Hp & _).
  by exists k, p.
Defined.

Lemma chained_Open_app_shadow_witness :
  chained_Open {| fs := [bundle_a] ++ [bundle_b] |} "/app.js"
  = chained_Open {| fs := [bundle_a] |} "/app.js".
Proof.
  apply (chained_Open_app_shadow [bundle_a] [bundle_b] "/app.js").
  exists bundle_a. split; [left|vm_compute; exact I].
Defined.

Lemma chained_Open_app_fall_through_witness :
  chained_Open {| fs := [bundle_a] ++ [bundle_b] |} "/nope"
  = chained_Open {| fs := [bundle_b] |} "/nope".
Proof.
  apply (chained_Open_app_fall_through [bundle_a] [bundle_b] "/nope"); [|done].
  intros p ->%list_elem_of_singleton. vm_compute. exact I.
Defined.

Lemma main_cfs_first_bundle_witness :
  chained_Open (main_cfs stub_Dir "/go" ["ui"; "base"]) "/index.html"
  = Ok {| embedded := {| content := "<html>"; entries := [] |} |}
  ∧ (∃ k bundleName,
       ["ui"; "base"] !! k = Some bundleName
       ∧ Open (bundle_web stub_Dir "/go" bundleName) "/index.html"
         = Ok {| content := "<html>"; entries := [] |})
  ∧ chained_Open (main_cfs stub_Dir "/go" []) "/index.html"
    = Err (errors_New "Algorithm failure").
Proof.
  assert (chained_Open (main_cfs stub_Dir "/go" ["ui"; "base"]) "/index.html"
          = Ok {| embedded := {| content := "<html>"; entries := [] |} |}) as Hopen
    by (vm_compute; reflexivity).
  split; [exact Hopen|]. split.
  - destruct (proj1 (main_cfs_first_bundle stub_Dir "/go" ["ui"; "base"] "/index.html")
                _ Hopen) as (k & n & Hk & Hn & _).
    by exists k, n.
  - apply (proj2 (main_cfs_first_bundle stub_Dir "/go" [] "/index.html")).
    reflexivity.
Defined.

Lemma chained_Open_found_iff_witness :
  is_Ok (chained_Open two_bundles "/img") ∧ ¬ is_Ok (chained_Open two_bundles "/nope").
Proof.
  split.
  - apply (chained_Open_found_iff two_bundles "/img").
    exists bundle_b. split; [right; left|vm_compute; exact I].
  - intros (p & Hin & Hok)%(chained_Open_found_iff two_bundles "/nope").
    apply list_elem_of_In in Hin. destruct Hin as [<-|[<-|[]]];
      vm_compute in Hok; exact Hok.
Defined.

(** ** Dispatcher *)

Lemma pure_command_success_witness :
  serve (OnCommand ExecNext) {| Body := "{}" |} stub0
  = {| mygdb := stub0; calls := [Invoke ExecNext (∅ : gmap string string)];
       w := {| status := Some 200; body := "" |} |}.
Proof.
  apply (pure_command_success (RT := stub_runtime) ExecNext {| Body := "{}" |}
           stub0 ∅ "" stub0);
    [reflexivity|vm_compute; reflexivity|vm_compute; reflexivity].
Defined.

Lemma session_is_what_operation_left_witness :
  current (mygdb (serve (OnCommand ThreadSelect)
                    {| Body := member "ThreadId" "2" |} stub0)) = "2"
  ∧ mygdb (serve (OnQuery ThreadListIds) {| Body := "" |} stub0) = stub0.
Proof.
  pose proof (session_is_what_operation_left (RT := stub_runtime)
                {| Body := member "ThreadId" "2" |} stub0) as [_ Hcommand].
  pose proof (session_is_what_operation_left (RT := stub_runtime)
                {| Body := "" |} stub0) as [Hquery _].
  split.
  - rewrite (Hcommand ThreadSelect {[ "ThreadId" := "2" ]} (Ok "2")
               {| alive := true; threads := ["1"; "2"]; current := "2";
                  breakpoints := [] |});
      [reflexivity|vm_compute; reflexivity|vm_compute; reflexivity].
  - apply (Hquery ThreadListIds (Ok ["1"; "2"])). vm_compute; reflexivity.
Defined.

Lemma backend_error_is_400_elsewhere_witness :
  w (serve (OnQuery ThreadListIds) {| Body := "" |} (stub_exit stub0))
  = {| status := Some 400; body := "gdb has exited" |}
  ∧ w (serve (OnCommand ExecStep) {| Body := "{}" |} (stub_exit stub0))
    = {| status := Some 400; body := "gdb has exited" |}.
Proof.
  pose proof (backend_error_is_400_elsewhere (RT := stub_runtime)
                {| Body := "" |} (stub_exit stub0) gone (stub_exit stub0))
    as [Hquery _].
  pose proof (backend_error_is_400_elsewhere (RT := stub_runtime)
                {| Body := "{}" |} (stub_exit stub0) gone (stub_exit stub0))
    as [_ Hcommand].
  split.
  - apply (Hquery ThreadListIds); [done|vm_compute; reflexivity].
  - apply (Hcommand ExecStep ∅); vm_compute; reflexivity.
Defined.

Lemma file_get_streams_witness :
  w (serve (RT := stub_runtime) FileGet
       {| Body := member "File" "/src/main.go" |} stub0)
  = {| status := Some 200; body := "package main" |}
  ∧ w (serve (RT := flaky_runtime) FileGet
         {| Body := member "File" "/src/main.go" |} stub0)
    = {| status := Some 200; body := "packageread: input/output error" |}.
Proof.
  split.
  - rewrite (file_get_streams (RT := stub_runtime)
               {| Body := member "File" "/src/main.go" |} stub0
               {[ "File" := "/src/main.go" ]} "package main" "package main" None);
      [vm_compute; reflexivity..].
  - rewrite (file_get_streams (RT := flaky_runtime)
               {| Body := member "File" "/src/main.go" |} stub0
               {[ "File" := "/src/main.go" ]} "package main" "package"
               (Some short_read));
      [vm_compute; reflexivity..].
Defined.

Lemma file_get_open_failure_witness :
  serve FileGet {| Body := "{}" |} stub0
  = {| mygdb := stub0; calls := [OsOpen ""];
       w := {| status := Some 500;
               body := "open : no such file or directory" |} |}.
Proof.
  rewrite (proj2 (file_get_open_failure (RT := stub_runtime) {| Body := "{}" |} stub0)
             ∅ (errors_New "open : no such file or directory"));
    vm_compute; reflexivity.
Defined.

Lemma patterns_differ_witness :
  pattern (OnQuery BreakList) ≠ pattern (OnCommand BreakInsert).
Proof. apply (patterns_differ (OnQuery BreakList) (OnCommand BreakInsert)). done. Defined.

(** ** Multiplexer *)

Lemma session_after_run_witness :
  session (after (console_then_heartbeat (Some broken_pipe) None) mux0)
  = stub_exit stub0
  ∧ session (after (console_then_heartbeat None None) mux0) = stub0.
Proof.
  assert (run (console_then_heartbeat (Some broken_pipe) None)
            (start (λ _, []) 100 stub0)
          = Some (tt, after (console_then_heartbeat (Some broken_pipe) None) mux0))
    as Hfailed by (vm_compute; reflexivity).
  assert (run (console_then_heartbeat None None) (start (λ _, []) 100 stub0)
          = Some (tt, after (console_then_heartbeat None None) mux0))
    as Hfine by (vm_compute; reflexivity).
  split.
  - rewrite (proj1 (session_after_run (W := string_wire) _ _ _ _ _ Hfailed)).
    vm_compute. reflexivity.
  - apply (proj2 (session_after_run (W := string_wire) _ _ _ _ _ Hfine)).
    vm_compute. reflexivity.
Defined.

Lemma one_write_per_iteration_witness :
  length (ws (after (W := plain_wire) three_lines mux0)) = 4%nat
  ∧ (length (ws (after (W := string_wire)
                   [Send Console "NaN"; Iterate console_fires] mux0)) ≤ 1)%nat.
Proof.
  assert (run (W := plain_wire) three_lines (start (λ _, []) 100 stub0)
          = Some (tt, after (W := plain_wire) three_lines mux0)) as Hthree
    by (vm_compute; reflexivity).
  assert (run (W := string_wire) [Send Console "NaN"; Iterate console_fires]
            (start (λ _, []) 100 stub0)
          = Some (tt, after (W := string_wire)
                        [Send Console "NaN"; Iterate console_fires] mux0)) as Hnan
    by (vm_compute; reflexivity).
  split.
  - rewrite (proj2 (one_write_per_iteration (W := plain_wire) _ _ _ _ _ Hthree)
               (λ _, I)).
    vm_compute. reflexivity.
  - apply (proj1 (one_write_per_iteration (W := string_wire) _ _ _ _ _ Hnan)).
Defined.

Lemma channel_consumption_witness :
  (length (@nil string) + length (sent_on Console three_lines)
   = firings (Recv Console) three_lines
     + length (chan (after (W := plain_wire) three_lines mux0) Console))%nat
  ∧ firings (Recv Console) three_lines = 3%nat.
Proof.
  assert (run (W := plain_wire) three_lines (start (λ _, []) 100 stub0)
          = Some (tt, after (W := plain_wire) three_lines mux0)) as Hthree
    by (vm_compute; reflexivity).
  split; [|vm_compute; reflexivity].
  apply (channel_consumption (W := plain_wire) Console _ _ _ _ _ Hthree).
Defined.

Lemma heartbeats_only_from_timer_witness :
  written "heartbeat" (ws (after (console_then_heartbeat None None) mux0)) = [""]
  ∧ firings After (console_then_heartbeat None None) = 1%nat.
Proof.
  assert (run (console_then_heartbeat None None) (start (λ _, []) 100 stub0)
          = Some (tt, after (console_then_heartbeat None None) mux0))
    as Hfine by (vm_compute; reflexivity).
  assert (firings After (console_then_heartbeat None None) = 1%nat) as Hone
    by (vm_compute; reflexivity).
  split; [|exact Hone].
  destruct (heartbeats_only_from_timer (W := string_wire) _ _ _ _ _ Hfine)
    as (n & -> & _ & Hn).
  rewrite Hn, Hone by (vm_compute; exact I). reflexivity.
Defined.

(** ** [main] *)

Lemma main_outcome_witness :
  main ["godbg"; "a.out"; "src"; "more"] (λ _ _, Ok stub0) (λ _, None)
  = ([Printed usage], Returns)
  ∧ ¬ Go_server ∈ (main ["godbg"; "a.out"; "src"; "more"]
                     (λ _ _, Ok stub0) (λ _, None)).1
  ∧ (main ["godbg"; "a.out"; "src"] (λ _ _, Err gone) (λ _, None)).2 = Panics gone.
Proof.
  split; [reflexivity|]. split.
  - intros [Hlen _]%(proj1 (proj2 (proj2 (main_outcome _ _ _)))).
    discriminate Hlen.
  - apply (proj2 (proj2 (proj2 (main_outcome ["godbg"; "a.out"; "src"]
                                   (λ _ _, Err gone) (λ _, None)))) gone).
    split; [reflexivity|]. by left.
Defined.

(** * Delivery on one channel *)

Section Delivery.
Context `{G : GdbLib} `{W : Wire}.
Implicit Types (m : mux) (it : iteration) (acts : list action) (c : channel).








End Delivery.

